(** * claude-tools-agent: the conversation loop of [main.go]

    A shallow embedding of the Go program: the wire types of the Messages
    API, [Conversation.AppendResponse], [Request.Post] and the read-eval
    loop [Conversation.Converse], followed by the properties of the
    conversation engine that the specification states about them.

    Conventions.
    - Go strings are [string] (a sequence of bytes); the named string types
      [role], [model], [stopReason] and [responseType] are strings with
      distinguished constants, as in the source.
    - A Go [error] is represented by its [Error()] text.
    - Values of type [interface{}] obtained from JSON are [json] trees.
    - What the program obtains from the outside (the JSON codec, the HTTP
      client, the [%v] formatter of package fmt and the Unicode tables) is
      collected in an [Env]; standard input is the list of lines the
      scanner will deliver; standard output and the requests handed to the
      HTTP client are recorded in a [World]. *)

From Stdlib Require Import ZArith String Ascii List Lia DecimalString.
From stdpp Require Import base gmap strings list.
Import ListNotations.

Open Scope string_scope.
Open Scope list_scope.

(** ** Strings *)

Definition nl : string := String (ascii_of_nat 10) EmptyString.
Definition tab : string := String (ascii_of_nat 9) EmptyString.

(** [%d] of package fmt on an [int]. *)
Definition itoa (n : Z) : string := NilZero.string_of_int (Z.to_int n).

(** [utf8.RuneSelf] is 0x80: bytes below it are single-byte runes. *)
Fixpoint isASCII (s : string) : bool :=
  match s with
  | EmptyString => true
  | String c s' => (nat_of_ascii c <? 128)%nat && isASCII s'
  end.

Definition isUpperASCII (c : ascii) : bool :=
  (65 <=? nat_of_ascii c)%nat && (nat_of_ascii c <=? 90)%nat.

Fixpoint hasUpper (s : string) : bool :=
  match s with
  | EmptyString => false
  | String c s' => isUpperASCII c || hasUpper s'
  end.

(** [c += 'a' - 'A'] on the bytes ['A'..'Z']. *)
Definition lowerASCII (c : ascii) : ascii :=
  if isUpperASCII c then ascii_of_nat (nat_of_ascii c + 32) else c.

Fixpoint mapBytes (f : ascii -> ascii) (s : string) : string :=
  match s with
  | EmptyString => EmptyString
  | String c s' => String (f c) (mapBytes f s')
  end.

(** ** JSON values held in an [interface{}] *)

#[warnings="-register-all"]
Inductive json : Type :=
  | JNull
  | JBool (b : bool)
  | JNumber (float64bits : Z)
  | JString (s : string)
  | JArray (elems : list json)
  | JObject (fields : gmap string json).

(** ** Claude API types *)

Definition error : Type := string.

Inductive result (A : Type) : Type :=
  | Ok (a : A)
  | Err (e : error).
Arguments Ok {A} a.
Arguments Err {A} e.

Definition role : Type := string.
Definition model : Type := string.
Definition stopReason : Type := string.
Definition responseType : Type := string.

Definition User : role := "user".
Definition Assistant : role := "assistant".
Definition Opus : model := "claude-3-opus-20240229".
Definition Sonnet : model := "claude-3-sonnet-20240229".
Definition Haiku : model := "claude-3-haiku-20240307".
Definition EndTurn : stopReason := "end_turn".
Definition MaxTokens : stopReason := "max_tokens".
Definition StopSequence : stopReason := "stop_sequence".
Definition text : responseType := "text".
Definition toolUse : responseType := "tool_use".

Module InputSchema.
Record t : Type := mk
  { Type_ : string;
    Properties : gmap string json;
    Requires : list string }.
End InputSchema.

Module Tool.
Record t : Type := mk
  { Name : string;
    Description : string;
    InputSchema : InputSchema.t }.
End Tool.
Abbreviation Tool := Tool.t.

Module Message.
Record t : Type := mk
  { Role : role;
    Content : string }.
End Message.
Abbreviation Message := Message.t.

Definition Conversation : Type := list Message.

Module Request.
Record t : Type := mk
  { Model : model;
    Messages : Conversation;
    MaxTokens : Z;
    System : string;
    Tools : list Tool }.
End Request.
Abbreviation Request := Request.t.

Module ResponseMessage.
Record t : Type := mk
  { Type_ : responseType;
    Text : string;
    Id : string;
    Name : string;
    Input : json }.
End ResponseMessage.
Abbreviation ResponseMessage := ResponseMessage.t.

Module Usage.
Record t : Type := mk
  { InputTokens : Z;
    OutputTokens : Z }.
End Usage.

Module Response.
Record t : Type := mk
  { ID : string;
    Type_ : string;
    Role : role;
    Content : list ResponseMessage;
    Model : model;
    StopReason : stopReason;
    StopSequence : string;
    Usage : Usage.t }.
End Response.
Abbreviation Response := Response.t.

Definition SYS_PROMPT : string :=
  nl +:+ tab +:+ "You are Super Claude, an AI assistant designed to help employees and developers work with Super-Sod's backend microservices. "
  +:+ nl +:+ tab +:+ "We will start off by working with the 'go-postal' REST API. Use the tools provided to fulfil user requests."
  +:+ nl +:+ nl +:+ tab +:+ "Give brief responses - we are in dev mode and many conversations are for testing purposes."
  +:+ nl.

(** ** The outside world *)

(** The body of an HTTP response is a stream: the bytes it delivers and the
    error, if any, that ends it instead of a clean end of file. *)
Module Body.
Record t : Type := mk
  { data : string;
    readErr : option error }.
End Body.

(** [io.ReadAll]: everything read, and the error that stopped the read. *)
Definition ReadAll (b : Body.t) : string * option error :=
  (Body.data b, Body.readErr b).

Module HttpResponse.
Record t : Type := mk
  { StatusCode : Z;
    Body : Body.t }.
End HttpResponse.

(** Outcome of [client.Do]. *)
Inductive DoResult : Type :=
  | DoErr (e : error)
  | DoResp (resp : HttpResponse.t).

Definition StatusOK : Z := 200.

Record Env : Type := mkEnv
  { (** [json.Marshal] on a [Request] *)
    json_Marshal : Request -> result string;
    (** [client.Do] for the n-th exchange of the process, given the
        marshalled request body *)
    client_Do : nat -> string -> DoResult;
    (** [json.NewDecoder(body).Decode] into a [Response] *)
    json_Decode : Body.t -> result Response;
    (** the [%v] rendering of [resp.Content] *)
    fmt_v : list ResponseMessage -> string;
    (** [strings.Map(unicode.ToLower, s)], the non-ASCII path of
        [strings.ToLower] *)
    unicode_ToLower : string -> string }.

Record World : Type := mkWorld
  { (** requests handed to [client.Do], oldest first *)
    sent : list Request;
    (** writes to standard output, oldest first *)
    stdout : list string }.

Definition print (s : string) (w : World) : World :=
  {| sent := sent w; stdout := stdout w ++ [s] |}.

Definition println (s : string) (w : World) : World := print (s +:+ nl) w.

Definition handed (r : Request) (w : World) : World :=
  {| sent := sent w ++ [r]; stdout := stdout w |}.

(** How [Converse] stops: its loop breaks and the method returns, or the
    Go runtime panics (index out of range) and the process dies. *)
Inductive ending : Type :=
  | Returned
  | Panicked.

Section Program.

Variable E : Env.

(** [strings.ToLower]: ASCII-only strings are lowered bytewise (and
    returned as they are when no upper-case byte occurs); any other
    string goes through the Unicode mapping. *)
Definition strings_ToLower (s : string) : string :=
  if isASCII s then
    if hasUpper s then mapBytes lowerASCII s else s
  else unicode_ToLower E s.

(** [Conversation.AppendResponse] *)
Definition AppendResponse (msg : ResponseMessage) (c : Conversation) : Conversation :=
  if String.eqb (ResponseMessage.Type_ msg) text then
    let newMsg := Message.mk Assistant (ResponseMessage.Text msg) in
    c ++ [newMsg]
  else c.

(** [Request.Post], returning a [Response] or an error.  [http.NewRequest] is
    called with a constant method and URL and the header values set on
    the request do not influence the control flow, so the exchange is
    determined by the marshalled body and its position in the run. *)
Definition Post (r : Request) (w : World) : result Response * World :=
  match json_Marshal E r with
  | Err e => (Err e, w)
  | Ok jsonRequest =>
    let w' := handed r w in
    match client_Do E (length (sent w)) jsonRequest with
    | DoErr e => (Err ("failed to send request: " +:+ e), w')
    | DoResp resp =>
      if negb (HttpResponse.StatusCode resp =? StatusOK)%Z then
        match ReadAll (HttpResponse.Body resp) with
        | (_, Some e) =>
          (Err ("API request failed with status code: "
                +:+ itoa (HttpResponse.StatusCode resp)
                +:+ ", failed to read response body: " +:+ e), w')
        | (body, None) =>
          (Err ("API request failed with status code: "
                +:+ itoa (HttpResponse.StatusCode resp)
                +:+ ", response body: " +:+ body), w')
        end
      else
        match json_Decode E (HttpResponse.Body resp) with
        | Err e => (Err ("failed to decode response: " +:+ e), w')
        | Ok respData => (Ok respData, w')
        end
    end
  end.

(** [Conversation.Converse], the loop of the session.
    [scanner] lists the lines [scanner.Scan] will still deliver; when it
    is empty [Scan] reports false. *)
Fixpoint Converse (scanner : list string) (tools : list Tool)
         (c : Conversation) (w : World) : ending * Conversation * World :=
  let w := print "You: " w in
  match scanner with
  | [] => (Returned, c, w)
  | input :: scanner' =>
    if String.eqb (strings_ToLower input) "exit" then (Returned, c, w)
    else
      let c := c ++ [Message.mk User input] in
      let req := Request.mk Opus c 2048 SYS_PROMPT tools in
      match Post req w with
      | (Err err, w) =>
        Converse scanner' tools c (println ("Error making request: " +:+ err) w)
      | (Ok resp, w) =>
        let w := print ("Claude: " +:+ fmt_v E (Response.Content resp)
                        +:+ " (Tokens: in "
                        +:+ itoa (Usage.InputTokens (Response.Usage resp))
                        +:+ ", out "
                        +:+ itoa (Usage.OutputTokens (Response.Usage resp))
                        +:+ ")" +:+ nl) w in
        match Response.Content resp with
        | [] => (Panicked, c, w)
        | first :: _ => Converse scanner' tools (AppendResponse first c) w
        end
      end
  end.

End Program.

(** ** Derived notions used in the statements *)

(** The request [Converse] builds from the conversation. *)
Definition request_of (tools : list Tool) (c : Conversation) : Request :=
  Request.mk Opus c 2048 SYS_PROMPT tools.

(** The line [Converse] prints for a decoded response. *)
Definition report (E : Env) (resp : Response) : string :=
  "Claude: " +:+ fmt_v E (Response.Content resp)
  +:+ " (Tokens: in " +:+ itoa (Usage.InputTokens (Response.Usage resp))
  +:+ ", out " +:+ itoa (Usage.OutputTokens (Response.Usage resp))
  +:+ ")" +:+ nl.

(** [sub] occurs in [s] as a contiguous run of bytes. *)
Definition includes (sub s : string) : Prop :=
  exists pre post, s = pre +:+ sub +:+ post.

Fixpoint occurs (a : ascii) (s : string) : bool :=
  match s with
  | EmptyString => false
  | String b s' => Ascii.eqb a b || occurs a s'
  end.

(** Two bytes are the same letter up to ASCII case. *)
Definition same_letter (a b : ascii) : Prop :=
  a = b \/
  (isUpperASCII a = true /\ nat_of_ascii b = nat_of_ascii a + 32) \/
  (isUpperASCII b = true /\ nat_of_ascii a = nat_of_ascii b + 32).

(** Case-insensitive exact match of two strings. *)
Fixpoint equal_fold (s t : string) : Prop :=
  match s, t with
  | EmptyString, EmptyString => True
  | String a s', String b t' => same_letter a b /\ equal_fold s' t'
  | _, _ => False
  end.

(** The requests of [rs], in the order they were sent, each extend the
    messages of the one before, starting from [c] and ending below [c']. *)
Fixpoint grows (c : Conversation) (rs : list Request) (c' : Conversation) : Prop :=
  match rs with
  | [] => c `prefix_of` c'
  | r :: rs' => c `prefix_of` Request.Messages r /\ grows (Request.Messages r) rs' c'
  end.

(** ** Scripted environments

    A scripted environment answers the n-th exchange with the n-th entry of
    [replies] and decodes a body through a table from body text to decoded
    response.  The concrete sessions below run in such environments. *)

Definition scripted_Do (replies : list DoResult) (n : nat) (_ : string) : DoResult :=
  nth n replies (DoErr "connection refused").

Fixpoint table_Decode (table : list (string * Response)) (b : Body.t) : result Response :=
  match Body.readErr b with
  | Some e => Err e
  | None =>
    match table with
    | [] => Err "unexpected end of JSON input"
    | (body, resp) :: table' =>
      if String.eqb (Body.data b) body then Ok resp else table_Decode table' b
    end
  end.

Definition scripted (replies : list DoResult) (table : list (string * Response)) : Env :=
  {| json_Marshal := fun _ => Ok "{}";
     client_Do := scripted_Do replies;
     json_Decode := table_Decode table;
     fmt_v := fun _ => "[...]";
     unicode_ToLower := fun s => s |}.

Definition fresh : World := {| sent := []; stdout := [] |}.

Definition reply (status : Z) (body : string) : DoResult :=
  DoResp (HttpResponse.mk status (Body.mk body None)).

Definition response_with (content : list ResponseMessage) (stop : stopReason) : Response :=
  Response.mk "msg_01" "message" Assistant content Opus stop "" (Usage.mk 25 10).

Definition text_block (s : string) : ResponseMessage :=
  ResponseMessage.mk text s "" "" JNull.

Definition tool_use_block (id name : string) (input : json) : ResponseMessage :=
  ResponseMessage.mk toolUse "" id name input.

Definition postal_codes : Tool :=
  Tool.mk "lookup_postal_code" "Look up the postal code of a city."
          (InputSchema.mk "object"
             {[ "city" := JObject {[ "type" := JString "string" ]} ]}
             ["city"]).

(** Scenario C of the specification: one registered tool, one tool
    invocation in the reply. *)
Definition atlanta_block : ResponseMessage :=
  tool_use_block "t1" "lookup_postal_code" (JObject {[ "city" := JString "Atlanta" ]}).

Definition atlanta_env : Env :=
  scripted [reply 200 "<reply t1>"]
           [("<reply t1>", response_with [atlanta_block] "tool_use")].

Definition atlanta_line : string := "What is the postal code of Atlanta?".

(** A reply that invokes a tool the registry does not hold, followed by a
    plain text reply to the next line. *)
Definition weather_block : ResponseMessage :=
  tool_use_block "t2" "get_weather" (JObject {[ "city" := JString "Atlanta" ]}).

Definition weather_env : Env :=
  scripted [reply 200 "<reply t2>"; reply 200 "<reply text>"]
           [("<reply t2>", response_with [weather_block] "tool_use");
            ("<reply text>", response_with [text_block "Hello."] EndTurn)].

(** A reply with two text blocks. *)
Definition two_texts_env : Env :=
  scripted [reply 200 "<reply texts>"]
           [("<reply texts>",
             response_with [text_block "It looks up postal codes."; text_block "Anything else?"] EndTurn)].

(** A reply whose first block has a kind this program does not know. *)
Definition thinking_block : ResponseMessage :=
  ResponseMessage.mk "thinking" "" "" "" JNull.

Definition thinking_env : Env :=
  scripted [reply 200 "<reply thinking>"]
           [("<reply thinking>", response_with [thinking_block; text_block "Done."] EndTurn)].

(** Scenario D of the specification: the server answers 500. *)
Definition overloaded_env : Env :=
  scripted [reply 500 "<html>overloaded</html>"] [].

(** A 500 reply whose body breaks off while it is read. *)
Definition broken_body : Body.t := Body.mk "<html>" (Some "unexpected EOF").

Definition broken_env : Env :=
  scripted [DoResp (HttpResponse.mk 500 broken_body)] [].

(** ** Start-up: configuration, tool file and [main] *)

Module Config.
Record t : Type := mk
  { requireDotEnv : bool;
    AnthropicApiKey : string }.
End Config.
Abbreviation Config := Config.t.

(** What the process finds when it starts: its environment variables, the
    effect of [godotenv.Load] on them (the error it returns, if any, and
    the environment it leaves behind), the file system as seen by
    [os.ReadFile], and [json.Unmarshal] into a [Tool]. *)
Record Startup : Type := mkStartup
  { environ : gmap string string;
    godotenv_Load : gmap string string -> option error * gmap string string;
    os_ReadFile : string -> result string;
    json_Unmarshal : string -> result Tool }.

(** [os.Getenv]: the empty string for a variable that is not set. *)
Definition Getenv (env : gmap string string) (key : string) : string :=
  default "" (env !! key).

(** A computation that [log.Fatal] may cut short: the logged message, or
    the value the computation went on with. *)
Inductive run (A : Type) : Type :=
  | Fatal (msg : string)
  | Done (a : A).
Arguments Fatal {A} msg.
Arguments Done {A} a.

(** [NewConfig]: the key is the zero value until [Load] sets it. *)
Definition NewConfig (requireDotEnv : bool) : Config :=
  Config.mk requireDotEnv "".

(** [Config.Load].  Returns the configuration as [Load] leaves it, the
    environment after [godotenv.Load], and the world with what was printed. *)
Definition Load (S : Startup) (c : Config) (w : World)
  : run (Config * gmap string string * World) :=
  let '(err, env) := godotenv_Load S (environ S) in
  let proceed (w : World) :=
    let apiKey := Getenv env "ANTHROPIC_API_KEY" in
    if String.eqb apiKey "" then Fatal "FATAL: could not find ANTHROPIC_API_KEY"
    else Done (Config.mk (Config.requireDotEnv c) apiKey, env, w) in
  match err with
  | Some _ =>
    if Config.requireDotEnv c then Fatal "FATAL: Could not load .env"
    else proceed (println "Could not load .env, continuing..." w)
  | None => proceed w
  end.

(** [LoadToolFromJSONFile] *)
Definition LoadToolFromJSONFile (S : Startup) (filename : string) : result Tool :=
  match os_ReadFile S filename with
  | Err err => Err ("failed to read JSON file: " +:+ err)
  | Ok data =>
    match json_Unmarshal S data with
    | Err err => Err ("failed to unmarshal JSON: " +:+ err)
    | Ok toolJSON =>
      let tool := Tool.mk (Tool.Name toolJSON) (Tool.Description toolJSON)
                          (Tool.InputSchema toolJSON) in
      Ok tool
    end
  end.

(** [main]: load the configuration, load the one tool, then converse on an
    empty conversation with the lines of standard input. *)
Definition main (S : Startup) (E : Env) (stdin : list string)
  : run (ending * Conversation * World) :=
  match Load S (NewConfig true) fresh with
  | Fatal msg => Fatal msg
  | Done (cfg, _, w) =>
    match LoadToolFromJSONFile S "tools/postal_codes.json" with
    | Err _ => Fatal "FATAL: Error loading tool from JSON file."
    | Ok tool => Done (Converse E stdin [tool] [] w)
    end
  end.

(** ** Further notions used in the statements *)

Definition isUser (m : Message) : bool := String.eqb (Message.Role m) User.

Definition known_role (m : Message) : Prop :=
  Message.Role m = User \/ Message.Role m = Assistant.

(** Two environments that agree on everything except the printed form of a
    response and the blocks after the first of a decoded response. *)
Definition heads_agree (E1 E2 : Env) : Prop :=
  (forall r, json_Marshal E1 r = json_Marshal E2 r) /\
  (forall n j, client_Do E1 n j = client_Do E2 n j) /\
  (forall s, unicode_ToLower E1 s = unicode_ToLower E2 s) /\
  (forall b,
     match json_Decode E1 b, json_Decode E2 b with
     | Ok r1, Ok r2 => head (Response.Content r1) = head (Response.Content r2)
     | Err e1, Err e2 => e1 = e2
     | _, _ => False
     end).

(** A start-up in which everything is in place. *)
Definition dev_startup : Startup :=
  {| environ := ∅;
     godotenv_Load := fun env => (None, <["ANTHROPIC_API_KEY" := "sk-test"]> env);
     os_ReadFile := fun name =>
       if String.eqb name "tools/postal_codes.json" then Ok "<postal_codes.json>"
       else Err ("open " +:+ name +:+ ": no such file or directory");
     json_Unmarshal := fun data =>
       if String.eqb data "<postal_codes.json>" then Ok postal_codes
       else Err "unexpected end of JSON input" |}.

(** A start-up without a .env file, the key being set in the environment. *)
Definition no_dotenv_startup : Startup :=
  {| environ := {[ "ANTHROPIC_API_KEY" := "sk-test" ]};
     godotenv_Load := fun env => (Some "open .env: no such file or directory", env);
     os_ReadFile := os_ReadFile dev_startup;
     json_Unmarshal := json_Unmarshal dev_startup |}.

(** The reply of [thinking_env] with other blocks after the first. *)
Definition thinking_env' : Env :=
  scripted [reply 200 "<reply thinking>"]
           [("<reply thinking>",
             response_with [thinking_block; tool_use_block "t9" "get_time" JNull] EndTurn)].

(** Why [Post] failed once the request was marshalled, with what the
    error message shows of it: the error of the exchange, the status code in
    decimal with the read error or with the body, or the decoding error. *)
Inductive cause : Type :=
  | SendFailed (e : error)
  | StatusUnreadable (code : string) (e : error)
  | StatusWithBody (code : string) (body : string)
  | DecodeFailed (e : error).

(** The cause of failure that an outcome of [client.Do] leads to, if any. *)
Definition cause_of (E : Env) (d : DoResult) : option cause :=
  match d with
  | DoErr e => Some (SendFailed e)
  | DoResp resp =>
    if (HttpResponse.StatusCode resp =? 200)%Z then
      match json_Decode E (HttpResponse.Body resp) with
      | Err e => Some (DecodeFailed e)
      | Ok _ => None
      end
    else
      match Body.readErr (HttpResponse.Body resp) with
      | Some e => Some (StatusUnreadable (itoa (HttpResponse.StatusCode resp)) e)
      | None =>
        Some (StatusWithBody (itoa (HttpResponse.StatusCode resp))
                             (Body.data (HttpResponse.Body resp)))
      end
  end.

(** ** Equations of the loop *)

Section Equations.

Variable E : Env.
Variable tools : list Tool.

Lemma Converse_eof c w :
  Converse E [] tools c w = (Returned, c, print "You: " w).
Proof. reflexivity. Qed.

Lemma Converse_exit input scanner c w :
  strings_ToLower E input = "exit" ->
  Converse E (input :: scanner) tools c w = (Returned, c, print "You: " w).
Proof.
  intros H. cbn [Converse]. rewrite H. reflexivity.
Qed.

Lemma Converse_err input scanner c w err w' :
  strings_ToLower E input <> "exit" ->
  Post E (request_of tools (c ++ [Message.mk User input])) (print "You: " w) = (Err err, w') ->
  Converse E (input :: scanner) tools c w =
  Converse E scanner tools (c ++ [Message.mk User input])
           (println ("Error making request: " +:+ err) w').
Proof.
  intros Hne HP. cbn [Converse].
  apply String.eqb_neq in Hne. rewrite Hne.
  unfold request_of in HP. rewrite HP. reflexivity.
Qed.

Lemma Converse_ok input scanner c w resp w' first rest :
  strings_ToLower E input <> "exit" ->
  Post E (request_of tools (c ++ [Message.mk User input])) (print "You: " w) = (Ok resp, w') ->
  Response.Content resp = first :: rest ->
  Converse E (input :: scanner) tools c w =
  Converse E scanner tools (AppendResponse first (c ++ [Message.mk User input]))
           (print (report E resp) w').
Proof.
  intros Hne HP HC. cbn [Converse].
  apply String.eqb_neq in Hne. rewrite Hne.
  unfold request_of in HP. unfold report. rewrite HP, HC. reflexivity.
Qed.

Lemma Converse_ok_empty input scanner c w resp w' :
  strings_ToLower E input <> "exit" ->
  Post E (request_of tools (c ++ [Message.mk User input])) (print "You: " w) = (Ok resp, w') ->
  Response.Content resp = [] ->
  Converse E (input :: scanner) tools c w =
  (Panicked, c ++ [Message.mk User input], print (report E resp) w').
Proof.
  intros Hne HP HC. cbn [Converse].
  apply String.eqb_neq in Hne. rewrite Hne.
  unfold request_of in HP. unfold report. rewrite HP, HC. reflexivity.
Qed.

(** [Post] hands the request to the client at most once and prints nothing. *)
Lemma Post_world r w res w' :
  Post E r w = (res, w') ->
  stdout w' = stdout w /\ (w' = w \/ w' = handed r w).
Proof.
  unfold Post. intros H.
  destruct (json_Marshal E r) as [j|e].
  - destruct (client_Do E (length (sent w)) j) as [e|resp].
    + inversion H; subst; auto.
    + destruct (negb _).
      * destruct (ReadAll _) as [b [e|]]; inversion H; subst; auto.
      * destruct (json_Decode E _); inversion H; subst; auto.
  - inversion H; subst; auto.
Qed.

(** A decoded response means the request was handed to the client. *)
Lemma Post_Ok_world r w resp w' :
  Post E r w = (Ok resp, w') -> w' = handed r w.
Proof.
  unfold Post. intros H.
  destruct (json_Marshal E r) as [j|e]; [|discriminate].
  destruct (client_Do E (length (sent w)) j) as [e|hr]; [discriminate|].
  destruct (negb _).
  - destruct (ReadAll _) as [b [e|]]; discriminate.
  - destruct (json_Decode E _); inversion H; subst; auto.
Qed.

Lemma AppendResponse_text msg c :
  ResponseMessage.Type_ msg = text ->
  AppendResponse msg c = c ++ [Message.mk Assistant (ResponseMessage.Text msg)].
Proof. intros H. unfold AppendResponse. rewrite H. reflexivity. Qed.

Lemma AppendResponse_other msg c :
  ResponseMessage.Type_ msg <> text ->
  AppendResponse msg c = c.
Proof.
  intros H. unfold AppendResponse.
  apply String.eqb_neq in H. rewrite H. reflexivity.
Qed.

Lemma AppendResponse_prefix msg c : c `prefix_of` AppendResponse msg c.
Proof.
  unfold AppendResponse. destruct (String.eqb _ _).
  - apply prefix_app_r. reflexivity.
  - reflexivity.
Qed.

End Equations.

(** ** One turn of the loop *)

(** A line that is not the exit token costs one turn.  The turn appends the
    user's message and at most one assistant message, hands at most one
    request (built from the conversation with the user's message) to the
    client, and then either the loop goes on with the remaining lines or
    the process panics. *)
Lemma Converse_turn E tools input scanner c w :
  strings_ToLower E input <> "exit" ->
  exists c' w',
    (c' = c ++ [Message.mk User input] \/
     exists t, c' = (c ++ [Message.mk User input]) ++ [Message.mk Assistant t]) /\
    (sent w' = sent w \/
     sent w' = sent w ++ [request_of tools (c ++ [Message.mk User input])]) /\
    (Converse E (input :: scanner) tools c w = Converse E scanner tools c' w' \/
     Converse E (input :: scanner) tools c w = (Panicked, c', w')).
Proof.
  intros Hx.
  destruct (Post E (request_of tools (c ++ [Message.mk User input])) (print "You: " w))
    as [[resp|err] w'] eqn:HP.
  - pose proof (Post_Ok_world E _ _ _ _ HP) as Hw'.
    destruct (Response.Content resp) as [|first rest] eqn:HC.
    + exists (c ++ [Message.mk User input]), (print (report E resp) w').
      split; [left; reflexivity|]. split; [right; rewrite Hw'; reflexivity|].
      right. exact (Converse_ok_empty E tools _ _ _ _ _ _ Hx HP HC).
    + exists (AppendResponse first (c ++ [Message.mk User input])),
             (print (report E resp) w').
      split; [|split; [right; rewrite Hw'; reflexivity|]].
      * unfold AppendResponse. destruct (String.eqb _ _); [right; eauto|left; reflexivity].
      * left. exact (Converse_ok E tools _ _ _ _ _ _ _ _ Hx HP HC).
  - exists (c ++ [Message.mk User input]),
           (println ("Error making request: " +:+ err) w').
    split; [left; reflexivity|]. split.
    + destruct (Post_world E _ _ _ _ HP) as [_ [->| ->]]; [left|right]; reflexivity.
    + left. exact (Converse_err E tools _ _ _ _ _ _ Hx HP).
Qed.

(** Whatever the input, a session only adds: the final conversation
    extends the initial one, the requests handed to the client extend those
    handed before, and standard output extends what was printed before by
    the prompt. *)
Lemma Converse_extends E tools scanner : forall c w,
  c `prefix_of` snd (fst (Converse E scanner tools c w)) /\
  sent w `prefix_of` sent (snd (Converse E scanner tools c w)) /\
  (stdout w ++ ["You: "]) `prefix_of` stdout (snd (Converse E scanner tools c w)).
Proof.
  induction scanner as [|input scanner IH]; intros c w.
  - rewrite Converse_eof. cbn [snd fst sent stdout print]. repeat split; reflexivity.
  - destruct (String.eqb (strings_ToLower E input) "exit") eqn:Hx.
    + apply String.eqb_eq in Hx. rewrite (Converse_exit E tools _ _ _ _ Hx).
      cbn [snd fst sent stdout print]. repeat split; reflexivity.
    + apply String.eqb_neq in Hx.
      destruct (Post E (request_of tools (c ++ [Message.mk User input])) (print "You: " w))
        as [[resp|err] w'] eqn:HP.
      * destruct (Post_world E _ _ _ _ HP) as [Hout Hw'].
        assert (Hs : sent w `prefix_of` sent w').
        { destruct Hw' as [->| ->]; cbn [sent print handed];
            [reflexivity|apply prefix_app_r; reflexivity]. }
        cbn [stdout print] in Hout.
        destruct (Response.Content resp) as [|first rest] eqn:HC.
        -- rewrite (Converse_ok_empty E tools _ _ _ _ _ _ Hx HP HC).
           cbn [snd fst sent stdout print]. repeat split.
           ++ apply prefix_app_r. reflexivity.
           ++ exact Hs.
           ++ rewrite Hout. apply prefix_app_r. reflexivity.
        -- rewrite (Converse_ok E tools _ _ _ _ _ _ _ _ Hx HP HC).
           destruct (IH (AppendResponse first (c ++ [Message.mk User input]))
                        (print (report E resp) w')) as (H1 & H2 & H3).
           repeat split.
           ++ etrans; [|exact H1]. etrans; [|apply AppendResponse_prefix].
              apply prefix_app_r. reflexivity.
           ++ etrans; [exact Hs|exact H2].
           ++ etrans; [|exact H3]. cbn [stdout print]. rewrite Hout.
              apply prefix_app_r, prefix_app_r. reflexivity.
      * destruct (Post_world E _ _ _ _ HP) as [Hout Hw'].
        assert (Hs : sent w `prefix_of` sent w').
        { destruct Hw' as [->| ->]; cbn [sent print handed];
            [reflexivity|apply prefix_app_r; reflexivity]. }
        cbn [stdout print] in Hout.
        rewrite (Converse_err E tools _ _ _ _ _ _ Hx HP).
        destruct (IH (c ++ [Message.mk User input])
                     (println ("Error making request: " +:+ err) w')) as (H1 & H2 & H3).
        repeat split.
        -- etrans; [|exact H1]. apply prefix_app_r. reflexivity.
        -- etrans; [exact Hs|exact H2].
        -- etrans; [|exact H3]. cbn [stdout println print]. rewrite Hout.
           apply prefix_app_r, prefix_app_r. reflexivity.
Qed.

(** What a session adds to the conversation, if anything, starts with the
    user's message for a line of the input. *)
Lemma Converse_tail E tools scanner c w :
  exists tail : Conversation,
    snd (fst (Converse E scanner tools c w)) = c ++ tail /\
    (tail = [] \/
     exists next tl, In next scanner /\ tail = Message.mk User next :: tl).
Proof.
  destruct scanner as [|input scanner].
  - exists []. rewrite Converse_eof, app_nil_r. split; [reflexivity|left; reflexivity].
  - destruct (String.eqb (strings_ToLower E input) "exit") eqn:Hx.
    + apply String.eqb_eq in Hx. rewrite (Converse_exit E tools _ _ _ _ Hx).
      exists []. rewrite app_nil_r. split; [reflexivity|left; reflexivity].
    + apply String.eqb_neq in Hx.
      destruct (Converse_turn E tools input scanner c w Hx)
        as (c' & w' & Hc' & _ & Hgo).
      assert (Hfin : exists k, snd (fst (Converse E (input :: scanner) tools c w)) = c' ++ k).
      { destruct Hgo as [Hgo|Hgo]; rewrite Hgo.
        - destruct (Converse_extends E tools scanner c' w') as [[k Hk] _]. eauto.
        - exists []. rewrite app_nil_r. reflexivity. }
      destruct Hfin as [k Hk]. rewrite Hk.
      destruct Hc' as [->|[t ->]].
      * exists (Message.mk User input :: k). rewrite <- app_assoc.
        split; [reflexivity|]. right. exists input, k. split; [left|]; reflexivity.
      * exists (Message.mk User input :: Message.mk Assistant t :: k).
        rewrite <- !app_assoc. split; [reflexivity|].
        right. exists input, (Message.mk Assistant t :: k). split; [left|]; reflexivity.
Qed.

(** ** Case folding *)

Lemma mapBytes_lower_id s :
  hasUpper s = false -> mapBytes lowerASCII s = s.
Proof.
  induction s as [|a s IH]; cbn [hasUpper mapBytes]; intros H; [reflexivity|].
  apply orb_false_iff in H as [Ha Hs].
  rewrite (IH Hs). unfold lowerASCII. rewrite Ha. reflexivity.
Qed.

(** On ASCII-only input [strings.ToLower] is the bytewise lowering. *)
Lemma strings_ToLower_ascii E s :
  isASCII s = true -> strings_ToLower E s = mapBytes lowerASCII s.
Proof.
  intros H. unfold strings_ToLower. rewrite H.
  destruct (hasUpper s) eqn:Hu; [reflexivity|].
  symmetry. apply mapBytes_lower_id, Hu.
Qed.

Lemma isUpperASCII_range a :
  isUpperASCII a = true <-> (65 <= nat_of_ascii a <= 90)%nat.
Proof.
  unfold isUpperASCII. rewrite andb_true_iff, !Nat.leb_le. reflexivity.
Qed.

Lemma same_letter_lower a b :
  same_letter a b -> lowerASCII a = lowerASCII b.
Proof.
  assert (up : forall x y, isUpperASCII x = true ->
                           nat_of_ascii y = (nat_of_ascii x + 32)%nat ->
                           lowerASCII x = lowerASCII y).
  { intros x y Hx Hy. unfold lowerASCII. rewrite Hx.
    assert (Hy' : isUpperASCII y = false).
    { apply isUpperASCII_range in Hx. apply not_true_is_false.
      rewrite isUpperASCII_range. lia. }
    rewrite Hy', <- Hy. apply ascii_nat_embedding. }
  intros [->|[[Ha Hb]|[Hb Ha]]]; [reflexivity|auto|symmetry; auto].
Qed.

Lemma same_letter_ascii a b :
  same_letter a b -> (nat_of_ascii b <? 128)%nat = true -> (nat_of_ascii a <? 128)%nat = true.
Proof.
  intros [->|[[Ha Hb]|[Hb Ha]]] H; [exact H| |];
    apply Nat.ltb_lt; apply Nat.ltb_lt in H;
    match goal with U : isUpperASCII _ = true |- _ => apply isUpperASCII_range in U end; lia.
Qed.

Lemma equal_fold_lower s : forall t,
  equal_fold s t -> isASCII t = true ->
  isASCII s = true /\ mapBytes lowerASCII s = mapBytes lowerASCII t.
Proof.
  induction s as [|a s IH]; intros [|b t]; cbn [equal_fold isASCII mapBytes];
    try tauto.
  intros [Hab Hst] Ht. apply andb_true_iff in Ht as [Hb Ht].
  destruct (IH t Hst Ht) as [Hs Hm].
  rewrite (same_letter_ascii a b Hab Hb), Hs, Hm, (same_letter_lower a b Hab).
  split; reflexivity.
Qed.

(** ** Properties of the session *)

(** C10. When standard input is exhausted at the prompt ([scanner.Scan]
    reports false), [Converse] returns at once: the conversation is the one
    it was called with and no request is handed to the transport. *)
Theorem end_of_input_ends_the_session :
  forall (E : Env) (tools : list Tool) (c : Conversation) (w : World),
    Converse E [] tools c w = (Returned, c, print "You: " w) /\
    sent (print "You: " w) = sent w.
Proof.
  intros E tools c w. split; reflexivity.
Qed.

(** C6. Every input line that matches the token "exit" up to the case of
    its letters ends the session: [Converse] returns with the conversation
    unchanged (no message for that line) and without handing any request to
    the transport, whatever lines would follow. *)
Theorem exit_token_ends_the_session :
  forall (E : Env) (tools : list Tool) (input : string) (scanner : list string)
         (c : Conversation) (w : World),
    equal_fold input "exit" ->
    Converse E (input :: scanner) tools c w = (Returned, c, print "You: " w) /\
    sent (print "You: " w) = sent w.
Proof.
  intros E tools input scanner c w H.
  destruct (equal_fold_lower input "exit" H eq_refl) as [Ha Hm].
  split; [|reflexivity].
  apply Converse_exit. rewrite (strings_ToLower_ascii E input Ha), Hm.
  reflexivity.
Qed.

Lemma exit_token_ends_the_session_witness :
  equal_fold "ExIt" "exit" /\
  Converse atlanta_env ["ExIt"; atlanta_line] [postal_codes] [] fresh
  = (Returned, [], print "You: " fresh).
Proof.
  assert (H : equal_fold "ExIt" "exit").
  { cbn [equal_fold]. unfold same_letter.
    repeat split; try (left; reflexivity);
      right; left; split; reflexivity. }
  split; [exact H|].
  exact (proj1 (exit_token_ends_the_session atlanta_env [postal_codes] "ExIt"
                  [atlanta_line] [] fresh H)).
Defined.

(** C3. When the reply decodes to a response whose content is non-empty and
    consists of text blocks only, the turn appends, after the user's
    message, exactly one message: role assistant, content the text of the
    first block.  As the only line of the input, the turn makes [Converse]
    return that conversation, having handed one request to the client and
    printed the prompt, the response and the prompt again.  With more input
    the loop goes on from that state: the final conversation is that
    conversation followed by whatever later turns append, which, if
    anything, starts with the user's message for a later line; the request
    of the turn and the printed response stay in place. *)
Theorem text_response_appends_one_assistant_message :
  forall (E : Env) (tools : list Tool) (input : string) (scanner : list string)
         (c : Conversation) (w w' : World) (resp : Response)
         (first : ResponseMessage) (rest : list ResponseMessage),
    strings_ToLower E input <> "exit" ->
    Post E (request_of tools (c ++ [Message.mk User input])) (print "You: " w)
      = (Ok resp, w') ->
    Response.Content resp = first :: rest ->
    Forall (fun b => ResponseMessage.Type_ b = text) (first :: rest) ->
    Converse E [input] tools c w
      = (Returned,
         (c ++ [Message.mk User input])
           ++ [Message.mk Assistant (ResponseMessage.Text first)],
         {| sent := sent w ++ [request_of tools (c ++ [Message.mk User input])];
            stdout := stdout w ++ ["You: "; report E resp; "You: "] |}) /\
    Converse E (input :: scanner) tools c w
      = Converse E scanner tools
          ((c ++ [Message.mk User input])
             ++ [Message.mk Assistant (ResponseMessage.Text first)])
          (print (report E resp) w') /\
    (exists tail : Conversation,
       snd (fst (Converse E (input :: scanner) tools c w))
         = ((c ++ [Message.mk User input])
              ++ [Message.mk Assistant (ResponseMessage.Text first)]) ++ tail /\
       (tail = [] \/
        exists next tl, In next scanner /\ tail = Message.mk User next :: tl)) /\
    (sent w ++ [request_of tools (c ++ [Message.mk User input])])
      `prefix_of` sent (snd (Converse E (input :: scanner) tools c w)) /\
    (stdout w ++ ["You: "; report E resp; "You: "])
      `prefix_of` stdout (snd (Converse E (input :: scanner) tools c w)).
Proof.
  intros E tools input scanner c w w' resp first rest Hne HP HC Hall.
  assert (Hw' : w' = handed (request_of tools (c ++ [Message.mk User input]))
                            (print "You: " w))
    by exact (Post_Ok_world E _ _ _ _ HP).
  subst w'.
  assert (Hstep : forall l,
             Converse E (input :: l) tools c w
             = Converse E l tools
                 ((c ++ [Message.mk User input])
                    ++ [Message.mk Assistant (ResponseMessage.Text first)])
                 (print (report E resp)
                    (handed (request_of tools (c ++ [Message.mk User input]))
                       (print "You: " w)))).
  { intros l.
    rewrite (Converse_ok E tools input l c w resp _ first rest Hne HP HC).
    rewrite AppendResponse_text; [reflexivity|].
    inversion Hall; assumption. }
  split; [|split; [exact (Hstep scanner)|split; [|split]]].
  - rewrite (Hstep []), Converse_eof.
    unfold print, handed. cbn [sent stdout]. rewrite <- !app_assoc. reflexivity.
  - rewrite (Hstep scanner). apply Converse_tail.
  - rewrite (Hstep scanner).
    destruct (Converse_extends E tools scanner
                ((c ++ [Message.mk User input])
                   ++ [Message.mk Assistant (ResponseMessage.Text first)])
                (print (report E resp)
                   (handed (request_of tools (c ++ [Message.mk User input]))
                      (print "You: " w)))) as (_ & H2 & _).
    exact H2.
  - rewrite (Hstep scanner).
    destruct (Converse_extends E tools scanner
                ((c ++ [Message.mk User input])
                   ++ [Message.mk Assistant (ResponseMessage.Text first)])
                (print (report E resp)
                   (handed (request_of tools (c ++ [Message.mk User input]))
                      (print "You: " w)))) as (_ & _ & H3).
    etrans; [|exact H3].
    unfold print, handed. cbn [sent stdout]. rewrite <- !app_assoc. reflexivity.
Qed.

Lemma text_response_appends_one_assistant_message_witness :
  Converse two_texts_env ["What is the postal code tool for?"] [] [] fresh
  = (Returned,
     [Message.mk User "What is the postal code tool for?";
      Message.mk Assistant "It looks up postal codes."],
     {| sent := [request_of [] [Message.mk User "What is the postal code tool for?"]];
        stdout := ["You: ";
                   report two_texts_env
                     (response_with [text_block "It looks up postal codes.";
                                     text_block "Anything else?"] EndTurn);
                   "You: "] |}).
Proof.
  refine (proj1 (text_response_appends_one_assistant_message two_texts_env []
            "What is the postal code tool for?" [] [] fresh _ _
            (text_block "It looks up postal codes.")
            [text_block "Anything else?"] _ _ _ _)).
  - intros H. vm_compute in H. discriminate H.
  - reflexivity.
  - reflexivity.
  - repeat constructor.
Defined.

(** A decoded response that holds some block has a first block, and the
    turn goes on from what [AppendResponse] makes of that first block. *)
Lemma Converse_ok_In E tools input scanner c w resp w' b :
  strings_ToLower E input <> "exit" ->
  Post E (request_of tools (c ++ [Message.mk User input])) (print "You: " w)
    = (Ok resp, w') ->
  In b (Response.Content resp) ->
  exists first rest,
    Response.Content resp = first :: rest /\
    Converse E (input :: scanner) tools c w
      = Converse E scanner tools
          (AppendResponse first (c ++ [Message.mk User input]))
          (print (report E resp) w').
Proof.
  intros Hne HP Hin.
  destruct (Response.Content resp) as [|first rest] eqn:HC; [destruct Hin|].
  exists first, rest. split; [reflexivity|].
  exact (Converse_ok E tools input scanner c w resp w' first rest Hne HP HC).
Qed.

Lemma toolUse_not_text : toolUse <> text.
Proof. discriminate. Qed.

(** C4. When [Post] returns an error (the exchange failed, the status was
    not 200, or the body could not be read or decoded), the turn prints
    "Error making request: " followed by the error, appends no assistant
    message and keeps the user's message of that turn.  As the only line of
    the input, the turn makes [Converse] return the conversation with the
    user's message added, having printed the prompt, the error line and the
    prompt again.  With more input the loop goes on from that state: the
    final conversation is the conversation with the user's message followed
    by whatever later turns append, which, if anything, starts with the
    user's message for a later line; and the error line is followed on
    standard output by the next prompt. *)
Theorem transport_error_keeps_the_user_message :
  forall (E : Env) (tools : list Tool) (input : string) (scanner : list string)
         (c : Conversation) (w w' : World) (err : error),
    strings_ToLower E input <> "exit" ->
    Post E (request_of tools (c ++ [Message.mk User input])) (print "You: " w)
      = (Err err, w') ->
    Converse E [input] tools c w
      = (Returned,
         c ++ [Message.mk User input],
         {| sent := sent w';
            stdout := stdout w ++ ["You: "; "Error making request: " +:+ err +:+ nl;
                                   "You: "] |}) /\
    Converse E (input :: scanner) tools c w
      = Converse E scanner tools (c ++ [Message.mk User input])
          (println ("Error making request: " +:+ err) w') /\
    (exists tail : Conversation,
       snd (fst (Converse E (input :: scanner) tools c w))
         = (c ++ [Message.mk User input]) ++ tail /\
       (tail = [] \/
        exists next tl, In next scanner /\ tail = Message.mk User next :: tl)) /\
    (stdout w ++ ["You: "; "Error making request: " +:+ err +:+ nl; "You: "])
      `prefix_of` stdout (snd (Converse E (input :: scanner) tools c w)) /\
    (sent w' = sent w \/
     sent w' = sent w ++ [request_of tools (c ++ [Message.mk User input])]).
Proof.
  intros E tools input scanner c w w' err Hne HP.
  destruct (Post_world E _ _ _ _ HP) as [Hout Hw'].
  cbn [stdout print] in Hout.
  assert (Hstep : forall l,
             Converse E (input :: l) tools c w
             = Converse E l tools (c ++ [Message.mk User input])
                 (println ("Error making request: " +:+ err) w'))
    by (intros l; exact (Converse_err E tools input l c w err w' Hne HP)).
  split; [|split; [exact (Hstep scanner)|split; [|split]]].
  - rewrite (Hstep []), Converse_eof.
    unfold println, print. cbn [sent stdout]. rewrite Hout, <- !app_assoc.
    reflexivity.
  - rewrite (Hstep scanner). apply Converse_tail.
  - rewrite (Hstep scanner).
    destruct (Converse_extends E tools scanner (c ++ [Message.mk User input])
                (println ("Error making request: " +:+ err) w')) as (_ & _ & H3).
    etrans; [|exact H3].
    unfold println, print. cbn [sent stdout]. rewrite Hout, <- !app_assoc.
    reflexivity.
  - destruct Hw' as [->| ->]; [left|right]; reflexivity.
Qed.

Lemma transport_error_keeps_the_user_message_witness :
  Converse overloaded_env ["What is the postal code of Atlanta?"] [postal_codes] [] fresh
  = (Returned,
     [Message.mk User "What is the postal code of Atlanta?"],
     {| sent := [request_of [postal_codes]
                   [Message.mk User "What is the postal code of Atlanta?"]];
        stdout := ["You: ";
                   "Error making request: "
                   +:+ "API request failed with status code: 500, response body: <html>overloaded</html>"
                   +:+ nl;
                   "You: "] |}).
Proof.
  refine (proj1 (transport_error_keeps_the_user_message overloaded_env [postal_codes]
            "What is the postal code of Atlanta?" ["exit"] [] fresh
            (handed (request_of [postal_codes]
                       [Message.mk User "What is the postal code of Atlanta?"])
               (print "You: " fresh))
            "API request failed with status code: 500, response body: <html>overloaded</html>"
            _ _)).
  - intros H. vm_compute in H. discriminate H.
  - reflexivity.
Defined.

(** C9. For every decoded response with a first block, the conversation
    after the turn is determined by that first block alone: it is the
    conversation with the user's message, followed by one assistant message
    with the first block's text when that block has kind text, and by
    nothing otherwise.  The blocks after the first do not occur in it, and
    a first block of kind tool_use leaves the conversation as it was after
    the user's message was appended. *)
Theorem only_the_first_block_reaches_the_conversation :
  forall (E : Env) (tools : list Tool) (input : string) (scanner : list string)
         (c : Conversation) (w w' : World) (resp : Response)
         (first : ResponseMessage) (rest : list ResponseMessage),
    strings_ToLower E input <> "exit" ->
    Post E (request_of tools (c ++ [Message.mk User input])) (print "You: " w)
      = (Ok resp, w') ->
    Response.Content resp = first :: rest ->
    Converse E (input :: scanner) tools c w
      = Converse E scanner tools
          ((c ++ [Message.mk User input])
             ++ (if String.eqb (ResponseMessage.Type_ first) text
                 then [Message.mk Assistant (ResponseMessage.Text first)]
                 else []))
          (print (report E resp) w') /\
    (ResponseMessage.Type_ first = toolUse ->
     Converse E (input :: scanner) tools c w
       = Converse E scanner tools (c ++ [Message.mk User input])
           (print (report E resp) w')) /\
    sent w' = sent w ++ [request_of tools (c ++ [Message.mk User input])].
Proof.
  intros E tools input scanner c w w' resp first rest Hne HP HC.
  pose proof (Converse_ok E tools input scanner c w resp w' first rest Hne HP HC) as Hstep.
  split; [|split].
  - rewrite Hstep. unfold AppendResponse.
    destruct (String.eqb _ _); [reflexivity|].
    rewrite app_nil_r. reflexivity.
  - intros Hk. rewrite Hstep, AppendResponse_other; [reflexivity|].
    rewrite Hk. exact toolUse_not_text.
  - rewrite (Post_Ok_world E _ _ _ _ HP). reflexivity.
Qed.

Lemma only_the_first_block_reaches_the_conversation_witness :
  Converse thinking_env ["Think."] [postal_codes] [] fresh
  = Converse thinking_env [] [postal_codes] [Message.mk User "Think."]
      (print (report thinking_env
                (response_with [thinking_block; text_block "Done."] EndTurn))
         (handed (request_of [postal_codes] [Message.mk User "Think."])
            (print "You: " fresh))).
Proof.
  refine (proj1 (only_the_first_block_reaches_the_conversation thinking_env
            [postal_codes] "Think." [] [] fresh _ _ thinking_block
            [text_block "Done."] _ _ _)).
  - intros H. vm_compute in H. discriminate H.
  - reflexivity.
  - reflexivity.
Defined.

(** C7. A block whose kind is neither text nor tool_use is a no-op:
    [AppendResponse] returns the conversation as it is for such a block,
    and a turn whose decoded response holds one prints no error, does not
    panic and is followed by the next prompt; when the block comes first,
    nothing is appended after the user's message. *)
Theorem unknown_block_kind_is_ignored :
  forall (E : Env) (tools : list Tool) (input : string) (scanner : list string)
         (c : Conversation) (w w' : World) (resp : Response) (b : ResponseMessage),
    ResponseMessage.Type_ b <> text ->
    ResponseMessage.Type_ b <> toolUse ->
    strings_ToLower E input <> "exit" ->
    Post E (request_of tools (c ++ [Message.mk User input])) (print "You: " w)
      = (Ok resp, w') ->
    In b (Response.Content resp) ->
    (forall c0 : Conversation, AppendResponse b c0 = c0) /\
    (exists first rest,
       Response.Content resp = first :: rest /\
       Converse E (input :: scanner) tools c w
         = Converse E scanner tools
             (AppendResponse first (c ++ [Message.mk User input]))
             (print (report E resp) w') /\
       (first = b ->
        AppendResponse first (c ++ [Message.mk User input])
          = c ++ [Message.mk User input])) /\
    stdout w' = stdout w ++ ["You: "].
Proof.
  intros E tools input scanner c w w' resp b Hnt _ Hne HP Hin.
  split; [|split].
  - intros c0. apply AppendResponse_other, Hnt.
  - destruct (Converse_ok_In E tools input scanner c w resp w' b Hne HP Hin)
      as (first & rest & HC & Hstep).
    exists first, rest. repeat split; [exact HC|exact Hstep|].
    intros ->. apply AppendResponse_other, Hnt.
  - destruct (Post_world E _ _ _ _ HP) as [Hout _]. rewrite Hout. reflexivity.
Qed.

Lemma unknown_block_kind_is_ignored_witness :
  AppendResponse thinking_block [Message.mk User "Think."]
  = [Message.mk User "Think."].
Proof.
  refine (proj1 (unknown_block_kind_is_ignored thinking_env [postal_codes]
            "Think." [] [] fresh _
            (response_with [thinking_block; text_block "Done."] EndTurn)
            thinking_block _ _ _ _ _) [Message.mk User "Think."]).
  - discriminate.
  - discriminate.
  - intros H. vm_compute in H. discriminate H.
  - reflexivity.
  - left. reflexivity.
Defined.

(** C1 (as stated) fails.  In scenario C the registry holds
    lookup_postal_code and the reply invokes it with id t1; the session
    that reads this one line hands a single request to the transport and
    ends with the user's message as the only message: no tool-result
    message exists and no second request is sent. *)
Lemma registered_tool_invocation_gets_no_second_request :
  In (ResponseMessage.Name atlanta_block) (map Tool.Name [postal_codes]) /\
  Converse atlanta_env [atlanta_line] [postal_codes] [] fresh
  = (Returned,
     [Message.mk User atlanta_line],
     print "You: "
       (print (report atlanta_env (response_with [atlanta_block] "tool_use"))
          (handed (request_of [postal_codes] [Message.mk User atlanta_line])
             (print "You: " fresh)))) /\
  sent (snd (Converse atlanta_env [atlanta_line] [postal_codes] [] fresh))
  = [request_of [postal_codes] [Message.mk User atlanta_line]] /\
  ~ (2 <= length (sent (snd (Converse atlanta_env [atlanta_line] [postal_codes] [] fresh))))%nat.
Proof.
  split; [left; reflexivity|]. split; [reflexivity|]. split; [reflexivity|].
  change (~ (2 <= 1)%nat). lia.
Qed.

(** C1 (amended). For every decoded response that holds a tool_use block
    naming a registered tool, nothing is dispatched: the turn hands exactly
    one request to the transport, prints the response, and goes back to
    the prompt with a conversation that holds, after the user's message, at
    most one more message, an assistant message with the first block's
    text; when the tool_use block is the first block nothing is appended
    after the user's message. *)
Theorem registered_tool_invocation_is_not_dispatched :
  forall (E : Env) (tools : list Tool) (input : string) (scanner : list string)
         (c : Conversation) (w w' : World) (resp : Response) (b : ResponseMessage),
    strings_ToLower E input <> "exit" ->
    Post E (request_of tools (c ++ [Message.mk User input])) (print "You: " w)
      = (Ok resp, w') ->
    In b (Response.Content resp) ->
    ResponseMessage.Type_ b = toolUse ->
    In (ResponseMessage.Name b) (map Tool.Name tools) ->
    sent w' = sent w ++ [request_of tools (c ++ [Message.mk User input])] /\
    exists first rest,
      Response.Content resp = first :: rest /\
      Converse E (input :: scanner) tools c w
        = Converse E scanner tools
            (AppendResponse first (c ++ [Message.mk User input]))
            (print (report E resp) w') /\
      (AppendResponse first (c ++ [Message.mk User input])
         = c ++ [Message.mk User input] \/
       AppendResponse first (c ++ [Message.mk User input])
         = (c ++ [Message.mk User input])
             ++ [Message.mk Assistant (ResponseMessage.Text first)]) /\
      (first = b ->
       AppendResponse first (c ++ [Message.mk User input])
         = c ++ [Message.mk User input]).
Proof.
  intros E tools input scanner c w w' resp b Hne HP Hin Hk _.
  split.
  - rewrite (Post_Ok_world E _ _ _ _ HP). reflexivity.
  - destruct (Converse_ok_In E tools input scanner c w resp w' b Hne HP Hin)
      as (first & rest & HC & Hstep).
    exists first, rest. repeat split; [exact HC|exact Hstep| |].
    + unfold AppendResponse. destruct (String.eqb _ _); [right|left]; reflexivity.
    + intros ->. apply AppendResponse_other. rewrite Hk. exact toolUse_not_text.
Qed.

Lemma registered_tool_invocation_is_not_dispatched_witness :
  sent (handed (request_of [postal_codes] [Message.mk User atlanta_line])
          (print "You: " fresh))
  = sent fresh ++ [request_of [postal_codes] ([] ++ [Message.mk User atlanta_line])].
Proof.
  refine (proj1 (registered_tool_invocation_is_not_dispatched atlanta_env
            [postal_codes] atlanta_line [] [] fresh _
            (response_with [atlanta_block] "tool_use") atlanta_block
            _ _ _ _ _)).
  - intros H. vm_compute in H. discriminate H.
  - reflexivity.
  - left. reflexivity.
  - reflexivity.
  - left. reflexivity.
Defined.

(** C2 (as stated) fails.  The reply to the first line invokes get_weather,
    which the registry does not hold.  No failure result is fed back: the
    request sent for the second line carries the two user messages and
    nothing between them, and the final conversation holds no message for
    the invocation. *)
Lemma unknown_tool_invocation_gets_no_failure_result :
  ~ In (ResponseMessage.Name weather_block) (map Tool.Name [postal_codes]) /\
  fst (Converse weather_env ["Weather in Atlanta?"; "Hello?"] [postal_codes] [] fresh)
  = (Returned,
     [Message.mk User "Weather in Atlanta?";
      Message.mk User "Hello?";
      Message.mk Assistant "Hello."]) /\
  sent (snd (Converse weather_env ["Weather in Atlanta?"; "Hello?"] [postal_codes] [] fresh))
  = [request_of [postal_codes] [Message.mk User "Weather in Atlanta?"];
     request_of [postal_codes]
       [Message.mk User "Weather in Atlanta?"; Message.mk User "Hello?"]] /\
  ~ (exists r m,
       In r (sent (snd (Converse weather_env ["Weather in Atlanta?"; "Hello?"]
                          [postal_codes] [] fresh))) /\
       In m (Request.Messages r) /\ Message.Role m <> User).
Proof.
  split; [|split; [reflexivity|split; [reflexivity|]]].
  - intros [H|[]]. discriminate H.
  - intros (r & m & Hr & Hm & Hrole). apply Hrole.
    change (In r [request_of [postal_codes] [Message.mk User "Weather in Atlanta?"];
                  request_of [postal_codes]
                    [Message.mk User "Weather in Atlanta?"; Message.mk User "Hello?"]])
      in Hr.
    destruct Hr as [<-|[<-|[]]]; cbn [request_of Request.Messages In] in Hm;
      intuition (subst; reflexivity).
Qed.

(** C2 (amended). For every tool_use block whose tool name the registry
    does not hold, no result is produced and nothing is fed back:
    [AppendResponse] returns the conversation as it is for the block; a
    turn whose decoded response holds it does not panic, prints no error,
    and is followed by the next prompt; when the block comes first, nothing
    is appended after the user's message. *)
Theorem unknown_tool_invocation_is_skipped :
  forall (E : Env) (tools : list Tool) (input : string) (scanner : list string)
         (c : Conversation) (w w' : World) (resp : Response) (b : ResponseMessage),
    ResponseMessage.Type_ b = toolUse ->
    ~ In (ResponseMessage.Name b) (map Tool.Name tools) ->
    strings_ToLower E input <> "exit" ->
    Post E (request_of tools (c ++ [Message.mk User input])) (print "You: " w)
      = (Ok resp, w') ->
    In b (Response.Content resp) ->
    (forall c0 : Conversation, AppendResponse b c0 = c0) /\
    stdout w' = stdout w ++ ["You: "] /\
    exists first rest,
      Response.Content resp = first :: rest /\
      Converse E (input :: scanner) tools c w
        = Converse E scanner tools
            (AppendResponse first (c ++ [Message.mk User input]))
            (print (report E resp) w') /\
      (first = b ->
       Converse E (input :: scanner) tools c w
         = Converse E scanner tools (c ++ [Message.mk User input])
             (print (report E resp) w')).
Proof.
  intros E tools input scanner c w w' resp b Hk _ Hne HP Hin.
  assert (Hb : forall c0 : Conversation, AppendResponse b c0 = c0).
  { intros c0. apply AppendResponse_other. rewrite Hk. exact toolUse_not_text. }
  split; [exact Hb|]. split.
  - destruct (Post_world E _ _ _ _ HP) as [Hout _]. rewrite Hout. reflexivity.
  - destruct (Converse_ok_In E tools input scanner c w resp w' b Hne HP Hin)
      as (first & rest & HC & Hstep).
    exists first, rest. repeat split; [exact HC|exact Hstep|].
    intros ->. rewrite Hstep, Hb. reflexivity.
Qed.

Lemma unknown_tool_invocation_is_skipped_witness :
  AppendResponse weather_block [Message.mk User "Weather in Atlanta?"]
  = [Message.mk User "Weather in Atlanta?"].
Proof.
  refine (proj1 (unknown_tool_invocation_is_skipped weather_env [postal_codes]
            "Weather in Atlanta?" ["Hello?"] [] fresh _
            (response_with [weather_block] "tool_use") weather_block
            _ _ _ _ _) [Message.mk User "Weather in Atlanta?"]).
  - reflexivity.
  - intros [H|[]]. discriminate H.
  - intros H. vm_compute in H. discriminate H.
  - reflexivity.
  - left. reflexivity.
Defined.

(** ** The conversation only grows *)

Lemma grows_from_prefix c0 c rs c' :
  c0 `prefix_of` c -> grows c rs c' -> grows c0 rs c'.
Proof.
  intros H0. destruct rs as [|r rs]; cbn [grows].
  - intros H. etrans; eassumption.
  - intros [H1 H2]. split; [etrans; eassumption|assumption].
Qed.

Lemma prefix_snoc_self {A} (l : list A) (x : A) : l `prefix_of` l ++ [x].
Proof. apply prefix_app_r. reflexivity. Qed.

Lemma grows_prefix c rs c' : grows c rs c' -> c `prefix_of` c'.
Proof.
  revert c. induction rs as [|r rs IH]; intros c; cbn [grows]; [auto|].
  intros [H1 H2]. etrans; [exact H1|]. apply IH, H2.
Qed.

Lemma grows_Forall c rs c' :
  grows c rs c' ->
  Forall (fun r => c `prefix_of` Request.Messages r /\
                   Request.Messages r `prefix_of` c') rs.
Proof.
  revert c. induction rs as [|r rs IH]; intros c; cbn [grows]; [constructor|].
  intros [H1 H2]. constructor.
  - split; [exact H1|]. eapply grows_prefix, H2.
  - eapply Forall_impl; [apply IH, H2|].
    intros r' [Ha Hb]. split; [etrans; eassumption|exact Hb].
Qed.

(** C5. The conversation is append-only.  [AppendResponse] extends the
    conversation it is given at its end; and in every session the message
    list embedded in each request extends the list embedded in the request
    before it (the initial conversation for the first), and the
    conversation at the end of the session extends the list of the last
    request: a message, once appended, keeps its content and its position
    in every later request and in the final conversation. *)
Theorem conversation_is_append_only :
  forall (E : Env) (tools : list Tool) (scanner : list string)
         (c : Conversation) (w : World),
    (forall msg : ResponseMessage, c `prefix_of` AppendResponse msg c) /\
    exists rs : list Request,
      sent (snd (Converse E scanner tools c w)) = sent w ++ rs /\
      grows c rs (snd (fst (Converse E scanner tools c w))) /\
      Forall (fun r => c `prefix_of` Request.Messages r /\
                       Request.Messages r
                         `prefix_of` snd (fst (Converse E scanner tools c w))) rs /\
      c `prefix_of` snd (fst (Converse E scanner tools c w)).
Proof.
  intros E tools scanner c w. split; [intros msg; apply AppendResponse_prefix|].
  cut (exists rs : list Request,
         sent (snd (Converse E scanner tools c w)) = sent w ++ rs /\
         grows c rs (snd (fst (Converse E scanner tools c w)))).
  { intros (rs & Hs & Hg). exists rs. repeat split; [exact Hs|exact Hg| |].
    - apply grows_Forall, Hg.
    - eapply grows_prefix, Hg. }
  revert c w. induction scanner as [|input scanner IH]; intros c w.
  - exists []. rewrite Converse_eof. cbn [snd fst sent print grows].
    rewrite app_nil_r. split; reflexivity.
  - destruct (String.eqb (strings_ToLower E input) "exit") eqn:Hx.
    + apply String.eqb_eq in Hx. rewrite (Converse_exit E tools _ _ _ _ Hx).
      exists []. cbn [snd fst sent print grows]. rewrite app_nil_r.
      split; reflexivity.
    + apply String.eqb_neq in Hx.
      set (c1 := c ++ [Message.mk User input]).
      destruct (Post E (request_of tools c1) (print "You: " w)) as [[resp|err] w'] eqn:HP.
      * pose proof (Post_Ok_world E _ _ _ _ HP) as Hw'.
        destruct (Response.Content resp) as [|first rest] eqn:HC.
        -- rewrite (Converse_ok_empty E tools _ _ _ _ _ _ Hx HP HC). fold c1.
           exists [request_of tools c1]. cbn [snd fst grows]. rewrite Hw'.
           split; [reflexivity|]. split; [apply prefix_snoc_self|reflexivity].
        -- rewrite (Converse_ok E tools _ _ _ _ _ _ _ _ Hx HP HC). fold c1.
           destruct (IH (AppendResponse first c1) (print (report E resp) w'))
             as (rs & Hs & Hg).
           exists (request_of tools c1 :: rs). split.
           ++ rewrite Hs, Hw'. cbn [sent print handed]. rewrite <- app_assoc.
              reflexivity.
           ++ cbn [grows]. split; [apply prefix_snoc_self|].
              eapply grows_from_prefix; [|exact Hg].
              apply AppendResponse_prefix.
      * rewrite (Converse_err E tools _ _ _ _ _ _ Hx HP). fold c1.
        destruct (IH c1 (println ("Error making request: " +:+ err) w'))
          as (rs & Hs & Hg).
        destruct (Post_world E _ _ _ _ HP) as [_ [->| ->]].
        -- exists rs. split; [exact Hs|].
           eapply grows_from_prefix; [apply prefix_snoc_self|exact Hg].
        -- exists (request_of tools c1 :: rs). split.
           ++ rewrite Hs. cbn [sent println print handed]. rewrite <- app_assoc.
              reflexivity.
           ++ cbn [grows]. split; [apply prefix_snoc_self|exact Hg].
Qed.

(** ** Errors of [Post] *)

Lemma append_assoc (s1 s2 s3 : string) :
  (s1 +:+ s2) +:+ s3 = s1 +:+ s2 +:+ s3.
Proof.
  induction s1 as [|a s1 IH]; [reflexivity|].
  change (String a ((s1 +:+ s2) +:+ s3) = String a (s1 +:+ s2 +:+ s3)).
  rewrite IH. reflexivity.
Qed.

Lemma append_empty_r (s : string) : s +:+ "" = s.
Proof.
  induction s as [|a s IH]; [reflexivity|].
  change (String a (s +:+ "") = String a s).
  rewrite IH. reflexivity.
Qed.

Lemma occurs_append a s1 s2 :
  occurs a (s1 +:+ s2) = occurs a s1 || occurs a s2.
Proof.
  induction s1 as [|b s1 IH]; [reflexivity|].
  change (Ascii.eqb a b || occurs a (s1 +:+ s2)
          = (Ascii.eqb a b || occurs a s1) || occurs a s2).
  rewrite IH, orb_assoc. reflexivity.
Qed.

(** A byte of an included string occurs in the including one. *)
Lemma includes_occurs a sub s :
  includes sub s -> occurs a sub = true -> occurs a s = true.
Proof.
  intros (pre & post & ->) H.
  rewrite !occurs_append, H, orb_true_r. reflexivity.
Qed.

Lemma includes_suffix pre s : includes s (pre +:+ s).
Proof.
  exists pre, "". rewrite append_empty_r. reflexivity.
Qed.

(** C8 (as stated) fails.  A reply with status 500 whose body breaks off
    while it is read makes [Post] return an error, but the error message
    reports the read failure and does not include the body. *)
Lemma unreadable_body_is_not_in_the_error :
  ~ (200 <= 500 <= 299)%Z /\
  Post broken_env (request_of [] [Message.mk User "Hi"]) fresh
  = (Err "API request failed with status code: 500, failed to read response body: unexpected EOF",
     handed (request_of [] [Message.mk User "Hi"]) fresh) /\
  ~ includes (Body.data broken_body)
      "API request failed with status code: 500, failed to read response body: unexpected EOF".
Proof.
  split; [lia|]. split; [reflexivity|].
  intros H. apply (includes_occurs "<"%char) in H; [|reflexivity].
  vm_compute in H. discriminate H.
Qed.

(** C8 (amended). For every reply whose status code is outside 200..299,
    [Post] returns an error and no response.  When the body is read to its
    end the error message includes it; when reading the body fails the
    error message reports the status code and the read failure instead. *)
Theorem non_2xx_status_is_an_error :
  forall (E : Env) (r : Request) (w : World) (jsonRequest : string)
         (status : Z) (body : Body.t),
    json_Marshal E r = Ok jsonRequest ->
    client_Do E (length (sent w)) jsonRequest
      = DoResp (HttpResponse.mk status body) ->
    ~ (200 <= status <= 299)%Z ->
    exists msg : error,
      Post E r w = (Err msg, handed r w) /\
      match Body.readErr body with
      | None => includes (Body.data body) msg
      | Some e =>
        msg = "API request failed with status code: " +:+ itoa status
              +:+ ", failed to read response body: " +:+ e
      end.
Proof.
  intros E r w j status body HM HD Hs.
  unfold Post. rewrite HM, HD. cbn [HttpResponse.StatusCode HttpResponse.Body].
  assert (Hne : negb (status =? StatusOK)%Z = true).
  { apply negb_true_iff, Z.eqb_neq. unfold StatusOK. lia. }
  rewrite Hne. unfold ReadAll.
  destruct (Body.readErr body) as [e|].
  - eexists. split; reflexivity.
  - eexists. split; [reflexivity|].
    rewrite <- !append_assoc. apply includes_suffix.
Qed.

Lemma non_2xx_status_is_an_error_witness :
  exists msg : error,
    Post overloaded_env (request_of [] [Message.mk User "Hi"]) fresh
    = (Err msg, handed (request_of [] [Message.mk User "Hi"]) fresh) /\
    includes "<html>overloaded</html>" msg.
Proof.
  refine (non_2xx_status_is_an_error overloaded_env
            (request_of [] [Message.mk User "Hi"]) fresh "{}" 500
            (Body.mk "<html>overloaded</html>" None) _ _ _).
  - reflexivity.
  - reflexivity.
  - lia.
Defined.

(** ** Sanity checks of the model on concrete values *)

Example strings_ToLower_EXIT : strings_ToLower atlanta_env "EXIT" = "exit".
Proof. reflexivity. Qed.

Example strings_ToLower_keeps_lower :
  strings_ToLower atlanta_env "exit now" = "exit now".
Proof. reflexivity. Qed.

Example itoa_examples : itoa 0 = "0" /\ itoa 500 = "500" /\ itoa (-12) = "-12".
Proof. repeat split; reflexivity. Qed.

(** An empty content list makes [resp.Content[0]] panic after the response
    line was printed; the user's message stays in the conversation. *)
Example empty_content_panics :
  fst (Converse (scripted [reply 200 "<reply empty>"]
                          [("<reply empty>", response_with [] EndTurn)])
                ["Hi"; "exit"] [] [] fresh)
  = (Panicked, [Message.mk User "Hi"]).
Proof. reflexivity. Qed.

(** ** What every session keeps *)

(** The requests a session hands to the client: at most one per line, each
    built by [request_of] from a conversation that ends with a line of the
    input as the user's message. *)
Lemma Converse_requests E tools scanner : forall c w,
  exists rs : list Request,
    sent (snd (Converse E scanner tools c w)) = sent w ++ rs /\
    (length rs <= length scanner)%nat /\
    Forall (fun r => exists c0 input,
                In input scanner /\
                r = request_of tools (c0 ++ [Message.mk User input])) rs.
Proof.
  induction scanner as [|input scanner IH]; intros c w.
  - exists []. rewrite Converse_eof. cbn [snd sent print length].
    rewrite app_nil_r. repeat split; [lia|constructor].
  - destruct (String.eqb (strings_ToLower E input) "exit") eqn:Hx.
    + apply String.eqb_eq in Hx. rewrite (Converse_exit E tools _ _ _ _ Hx).
      exists []. cbn [snd sent print length]. rewrite app_nil_r.
      repeat split; [lia|constructor].
    + apply String.eqb_neq in Hx.
      destruct (Converse_turn E tools input scanner c w Hx)
        as (c' & w' & _ & Hsent & Hgo).
      assert (Hnew : exists rs0,
                 sent w' = sent w ++ rs0 /\ (length rs0 <= 1)%nat /\
                 Forall (fun r => exists c0 input0,
                             In input0 (input :: scanner) /\
                             r = request_of tools (c0 ++ [Message.mk User input0])) rs0).
      { destruct Hsent as [Hs|Hs].
        - exists []. rewrite app_nil_r. repeat split; [exact Hs|cbn; lia|constructor].
        - exists [request_of tools (c ++ [Message.mk User input])].
          repeat split; [exact Hs|cbn; lia|].
          constructor; [|constructor]. exists c, input. split; [left|]; reflexivity. }
      destruct Hnew as (rs0 & Hs0 & Hl0 & Hf0).
      destruct Hgo as [Hgo|Hgo]; rewrite Hgo.
      * destruct (IH c' w') as (rs & Hs & Hl & Hf).
        exists (rs0 ++ rs). rewrite Hs, Hs0, <- app_assoc, length_app.
        repeat split; [cbn [length]; lia|].
        apply Forall_app. split; [exact Hf0|].
        eapply Forall_impl; [exact Hf|].
        intros r (c0 & i0 & Hin & ->). exists c0, i0. split; [right; exact Hin|reflexivity].
      * exists rs0. cbn [snd]. repeat split; [exact Hs0|cbn [length]; lia|exact Hf0].
Qed.

(** X3. Every request of a session carries the same call parameters: the
    Opus model, a budget of 2048 tokens, the system prompt and the tool list
    [Converse] was called with. *)
Theorem requests_carry_fixed_parameters :
  forall (E : Env) (tools : list Tool) (scanner : list string)
         (c : Conversation) (w : World),
  exists rs : list Request,
    sent (snd (Converse E scanner tools c w)) = sent w ++ rs /\
    Forall (fun r => Request.Model r = Opus /\ Request.MaxTokens r = 2048%Z /\
                     Request.System r = SYS_PROMPT /\ Request.Tools r = tools) rs.
Proof.
  intros E tools scanner c w.
  destruct (Converse_requests E tools scanner c w) as (rs & Hs & _ & Hf).
  exists rs. split; [exact Hs|].
  eapply Forall_impl; [exact Hf|].
  intros r (c0 & i0 & _ & ->). repeat split.
Qed.

(** X4. The message list of every request of a session is non-empty and
    ends with a user message whose content is one of the input lines. *)
Theorem requests_end_with_a_user_line :
  forall (E : Env) (tools : list Tool) (scanner : list string)
         (c : Conversation) (w : World),
  exists rs : list Request,
    sent (snd (Converse E scanner tools c w)) = sent w ++ rs /\
    Forall (fun r => exists c0 input,
                In input scanner /\
                Request.Messages r = c0 ++ [Message.mk User input]) rs.
Proof.
  intros E tools scanner c w.
  destruct (Converse_requests E tools scanner c w) as (rs & Hs & _ & Hf).
  exists rs. split; [exact Hs|].
  eapply Forall_impl; [exact Hf|].
  intros r (c0 & i0 & Hin & ->). exists c0, i0. split; [exact Hin|reflexivity].
Qed.

(** X5. A session hands at most one request to the client per input line:
    there is no retry and no second round trip within a turn. *)
Theorem at_most_one_request_per_line :
  forall (E : Env) (tools : list Tool) (scanner : list string)
         (c : Conversation) (w : World),
    (length (sent (snd (Converse E scanner tools c w)))
     <= length (sent w) + length scanner)%nat.
Proof.
  intros E tools scanner c w.
  destruct (Converse_requests E tools scanner c w) as (rs & Hs & Hl & _).
  rewrite Hs, length_app. lia.
Qed.

(** X6. A session only ever appends messages of role user or assistant: when
    every message of the initial conversation has one of these two roles,
    so has every message of the final one.  No message of any other role
    (a tool result, say) is ever created. *)
Theorem only_user_and_assistant_messages :
  forall (E : Env) (tools : list Tool) (scanner : list string)
         (c : Conversation) (w : World),
    Forall known_role c ->
    Forall known_role (snd (fst (Converse E scanner tools c w))).
Proof.
  intros E tools scanner. induction scanner as [|input scanner IH]; intros c w Hc.
  - rewrite Converse_eof. exact Hc.
  - destruct (String.eqb (strings_ToLower E input) "exit") eqn:Hx.
    + apply String.eqb_eq in Hx. rewrite (Converse_exit E tools _ _ _ _ Hx). exact Hc.
    + apply String.eqb_neq in Hx.
      destruct (Converse_turn E tools input scanner c w Hx)
        as (c' & w' & Hc' & _ & Hgo).
      assert (Hk : Forall known_role c').
      { assert (Hu : Forall known_role (c ++ [Message.mk User input])).
        { apply Forall_app. split; [exact Hc|]. repeat constructor. }
        destruct Hc' as [->|[t ->]]; [exact Hu|].
        apply Forall_app. split; [exact Hu|].
        constructor; [right; reflexivity|constructor]. }
      destruct Hgo as [Hgo|Hgo]; rewrite Hgo; [apply IH, Hk|exact Hk].
Qed.

Lemma only_user_and_assistant_messages_witness :
  Forall known_role
    (snd (fst (Converse weather_env ["Weather in Atlanta?"; "Hello?"]
                 [postal_codes] [Message.mk Assistant "Welcome."] fresh))).
Proof.
  apply (only_user_and_assistant_messages weather_env [postal_codes]
           ["Weather in Atlanta?"; "Hello?"] [Message.mk Assistant "Welcome."] fresh).
  constructor; [right; reflexivity|constructor].
Defined.

Lemma filter_isUser_app (l1 l2 : list Message) :
  List.filter isUser (l1 ++ l2) = List.filter isUser l1 ++ List.filter isUser l2.
Proof.
  induction l1 as [|m l1 IH]; [reflexivity|].
  cbn [List.filter app]. rewrite IH. destruct (isUser m); reflexivity.
Qed.

(** X7. No user line is dropped or reordered.  When no input line is the
    exit token and the session returns, the user messages of the final
    conversation are those of the initial conversation followed by one
    message per input line, in input order; this holds whether the turns
    succeeded or failed. *)
Theorem user_lines_are_kept_in_order :
  forall (E : Env) (tools : list Tool) (scanner : list string)
         (c : Conversation) (w : World),
    Forall (fun input => strings_ToLower E input <> "exit") scanner ->
    fst (fst (Converse E scanner tools c w)) = Returned ->
    List.filter isUser (snd (fst (Converse E scanner tools c w)))
    = List.filter isUser c ++ List.map (Message.mk User) scanner.
Proof.
  intros E tools scanner.
  induction scanner as [|input scanner IH]; intros c w Hall Hret.
  - rewrite Converse_eof. cbn [snd fst List.map]. rewrite app_nil_r. reflexivity.
  - inversion Hall as [|? ? Hx Hall']; subst.
    destruct (Converse_turn E tools input scanner c w Hx)
      as (c' & w' & Hc' & _ & Hgo).
    destruct Hgo as [Hgo|Hgo]; rewrite Hgo in Hret |- *; [|discriminate Hret].
    rewrite (IH c' w' Hall' Hret). cbn [List.map].
    assert (Hf : List.filter isUser c'
                 = List.filter isUser c ++ [Message.mk User input]).
    { destruct Hc' as [->|[t ->]]; rewrite !filter_isUser_app; cbn [List.filter isUser];
        [reflexivity|apply app_nil_r]. }
    rewrite Hf, <- app_assoc. reflexivity.
Qed.

Lemma user_lines_are_kept_in_order_witness :
  List.filter isUser
    (snd (fst (Converse overloaded_env ["One"; ""; "Three"] [postal_codes] [] fresh)))
  = List.filter isUser [] ++ List.map (Message.mk User) ["One"; ""; "Three"].
Proof.
  apply (user_lines_are_kept_in_order overloaded_env [postal_codes]
           ["One"; ""; "Three"] [] fresh).
  - repeat constructor; intros H; vm_compute in H; discriminate H.
  - reflexivity.
Defined.

(** X8. The only way a session panics is a decoded response with an empty
    content list: when the decoder never yields one, [Converse] returns. *)
Theorem no_panic_without_empty_content :
  forall (E : Env) (tools : list Tool) (scanner : list string)
         (c : Conversation) (w : World),
    (forall b resp, json_Decode E b = Ok resp -> Response.Content resp <> []) ->
    fst (fst (Converse E scanner tools c w)) = Returned.
Proof.
  intros E tools scanner c w Hdec. revert c w.
  induction scanner as [|input scanner IH]; intros c w.
  - reflexivity.
  - destruct (String.eqb (strings_ToLower E input) "exit") eqn:Hx.
    + apply String.eqb_eq in Hx. rewrite (Converse_exit E tools _ _ _ _ Hx). reflexivity.
    + apply String.eqb_neq in Hx.
      destruct (Post E (request_of tools (c ++ [Message.mk User input])) (print "You: " w))
        as [[resp|err] w'] eqn:HP.
      * destruct (Response.Content resp) as [|first rest] eqn:HC.
        -- exfalso. revert HP. unfold Post.
           destruct (json_Marshal E _); [|discriminate].
           destruct (client_Do E _ _) as [e|hr]; [discriminate|].
           destruct (negb _); [destruct (ReadAll _) as [? [?|]]; discriminate|].
           destruct (json_Decode E _) as [r|e] eqn:HD; [|discriminate].
           intros H. inversion H; subst. exact (Hdec _ _ HD HC).
        -- rewrite (Converse_ok E tools _ _ _ _ _ _ _ _ Hx HP HC). apply IH.
      * rewrite (Converse_err E tools _ _ _ _ _ _ Hx HP). apply IH.
Qed.

Lemma no_panic_without_empty_content_witness :
  fst (fst (Converse weather_env ["Weather in Atlanta?"; "Hello?"; "Bye"]
              [postal_codes] [] fresh)) = Returned.
Proof.
  apply (no_panic_without_empty_content weather_env [postal_codes]
           ["Weather in Atlanta?"; "Hello?"; "Bye"] [] fresh).
  intros b resp. cbn [weather_env scripted json_Decode table_Decode].
  destruct (Body.readErr b); [discriminate|].
  destruct (String.eqb _ _); [intros H; inversion H; discriminate|].
  destruct (String.eqb _ _); [intros H; inversion H; discriminate|discriminate].
Defined.

(** X2. The exit token acts exactly like the end of input: the session
    over the lines up to an exit line, that line and anything after it is
    the session over the lines before it.  Lines after the exit line are
    never read. *)
Theorem exit_line_acts_as_end_of_input :
  forall (E : Env) (tools : list Tool) (before after : list string) (x : string)
         (c : Conversation) (w : World),
    strings_ToLower E x = "exit" ->
    Converse E (before ++ x :: after) tools c w = Converse E before tools c w.
Proof.
  intros E tools before after x c w Hx. revert c w.
  induction before as [|input before IH]; intros c w.
  - cbn [app]. rewrite (Converse_exit E tools _ _ _ _ Hx). reflexivity.
  - rewrite <- app_comm_cons. cbn [Converse].
    destruct (String.eqb _ _); [reflexivity|].
    destruct (Post E _ _) as [[resp|err] w'].
    + destruct (Response.Content resp); [reflexivity|apply IH].
    + apply IH.
Qed.

Lemma exit_line_acts_as_end_of_input_witness :
  Converse two_texts_env (["What is it for?"] ++ "Exit" :: ["More"; "lines"]) [] [] fresh
  = Converse two_texts_env ["What is it for?"] [] [] fresh.
Proof.
  apply (exit_line_acts_as_end_of_input two_texts_env [] ["What is it for?"]
           ["More"; "lines"] "Exit" [] fresh).
  reflexivity.
Defined.

(** ** Which lines end the session *)

Lemma lowerASCII_same_letter a b :
  lowerASCII a = b -> isUpperASCII b = false -> same_letter a b.
Proof.
  unfold lowerASCII. destruct (isUpperASCII a) eqn:Ha; intros H Hb.
  - right; left. split; [exact Ha|].
    subst b. apply nat_ascii_embedding.
    apply isUpperASCII_range in Ha. lia.
  - left. exact H.
Qed.

Lemma mapBytes_lower_equal_fold s : forall t,
  mapBytes lowerASCII s = t -> hasUpper t = false -> equal_fold s t.
Proof.
  induction s as [|a s IH]; intros [|b t]; cbn [mapBytes equal_fold hasUpper];
    try discriminate; [tauto|].
  intros H Hu. inversion H as [[Hab Hst]].
  apply orb_false_iff in Hu as [Hb Ht]. rewrite Hst. split.
  - rewrite Hab. apply lowerASCII_same_letter; [exact Hab|exact Hb].
  - apply IH; [exact Hst|exact Ht].
Qed.

(** X1. Among the lines made of ASCII bytes only, the lines that end the
    session are exactly the case variants of "exit": the exit test of
    [Converse] succeeds on such a line if and only if the line matches
    "exit" up to the case of its letters.  Surrounding blanks, a prefix or
    a longer word do not count. *)
Theorem ascii_line_exits_iff_case_variant :
  forall (E : Env) (input : string),
    isASCII input = true ->
    (strings_ToLower E input = "exit" <-> equal_fold input "exit").
Proof.
  intros E input Ha. rewrite (strings_ToLower_ascii E input Ha). split.
  - intros H. apply mapBytes_lower_equal_fold; [exact H|reflexivity].
  - intros H. destruct (equal_fold_lower input "exit" H eq_refl) as [_ Hm].
    rewrite Hm. reflexivity.
Qed.

Lemma ascii_line_exits_iff_case_variant_witness :
  ~ equal_fold " exit" "exit" /\ ~ equal_fold "exit!" "exit".
Proof.
  split; intros H.
  - apply (ascii_line_exits_iff_case_variant atlanta_env " exit" eq_refl) in H.
    vm_compute in H. discriminate H.
  - apply (ascii_line_exits_iff_case_variant atlanta_env "exit!" eq_refl) in H.
    vm_compute in H. discriminate H.
Defined.

(** ** When [Post] succeeds *)

(** X9. [Post] returns a response exactly when the request marshals, the
    exchange yields a reply with status code 200 and the body of that reply
    decodes; the response is the decoded one and the request was handed to
    the client once. *)
Theorem Post_succeeds_iff :
  forall (E : Env) (r : Request) (w w' : World) (resp : Response),
    Post E r w = (Ok resp, w') <->
    exists jsonRequest body,
      json_Marshal E r = Ok jsonRequest /\
      client_Do E (length (sent w)) jsonRequest
        = DoResp (HttpResponse.mk 200 body) /\
      json_Decode E body = Ok resp /\
      w' = handed r w.
Proof.
  intros E r w w' resp. unfold Post. split.
  - destruct (json_Marshal E r) as [j|e] eqn:HM; [|discriminate].
    destruct (client_Do E (length (sent w)) j) as [e|[status body]] eqn:HDo;
      [discriminate|].
    cbn [HttpResponse.StatusCode HttpResponse.Body].
    destruct (status =? StatusOK)%Z eqn:Hs; cbn [negb].
    + apply Z.eqb_eq in Hs. unfold StatusOK in Hs. subst status.
      destruct (json_Decode E body) as [r0|e] eqn:HD; [|discriminate].
      intros H. inversion H; subst. exists j, body.
      split; [reflexivity|]. split; [exact HDo|]. split; [exact HD|reflexivity].
    + destruct (ReadAll body) as [d [e|]]; discriminate.
  - intros (j & body & HM & HD & HJ & ->). rewrite HM, HD.
    cbn [HttpResponse.StatusCode HttpResponse.Body]. rewrite HJ. reflexivity.
Qed.

(** X10. Any status code other than 200 is an error, the other success
    codes (201, 204, ...) included, and the error message starts with the
    text "API request failed with status code: " followed by the code in
    decimal. *)
Theorem status_other_than_200_is_an_error :
  forall (E : Env) (r : Request) (w : World) (jsonRequest : string)
         (status : Z) (body : Body.t),
    json_Marshal E r = Ok jsonRequest ->
    client_Do E (length (sent w)) jsonRequest
      = DoResp (HttpResponse.mk status body) ->
    status <> 200%Z ->
    exists tail : string,
      Post E r w
      = (Err ("API request failed with status code: " +:+ itoa status +:+ tail),
         handed r w).
Proof.
  intros E r w j status body HM HD Hs.
  unfold Post. rewrite HM, HD. cbn [HttpResponse.StatusCode HttpResponse.Body].
  assert (Hne : negb (status =? StatusOK)%Z = true).
  { apply negb_true_iff, Z.eqb_neq. exact Hs. }
  rewrite Hne. unfold ReadAll.
  destruct (Body.readErr body) as [e|]; eexists; reflexivity.
Qed.

Lemma status_other_than_200_is_an_error_witness :
  exists tail : string,
    Post (scripted [reply 204 ""] []) (request_of [] [Message.mk User "Hi"]) fresh
    = (Err ("API request failed with status code: " +:+ itoa 204 +:+ tail),
       handed (request_of [] [Message.mk User "Hi"]) fresh).
Proof.
  refine (status_other_than_200_is_an_error (scripted [reply 204 ""] [])
            (request_of [] [Message.mk User "Hi"]) fresh "{}" 204
            (Body.mk "" None) _ _ _).
  - reflexivity.
  - reflexivity.
  - lia.
Defined.

(** ** Blocks after the first, and the printed form, leave no trace *)

Lemma strings_ToLower_agree E1 E2 s :
  heads_agree E1 E2 -> strings_ToLower E1 s = strings_ToLower E2 s.
Proof.
  intros (_ & _ & Hu & _). unfold strings_ToLower. rewrite Hu. reflexivity.
Qed.

Lemma Post_heads_agree E1 E2 r w1 w2 :
  heads_agree E1 E2 -> sent w1 = sent w2 ->
  match Post E1 r w1, Post E2 r w2 with
  | (Ok r1, w1'), (Ok r2, w2') =>
    head (Response.Content r1) = head (Response.Content r2) /\ sent w1' = sent w2'
  | (Err e1, w1'), (Err e2, w2') => e1 = e2 /\ sent w1' = sent w2'
  | _, _ => False
  end.
Proof.
  intros (HM & HD & _ & HJ) Hs. unfold Post.
  rewrite <- HM.
  destruct (json_Marshal E1 r) as [j|e]; [|split; [reflexivity|exact Hs]].
  rewrite <- Hs, <- HD.
  assert (Hh : sent (handed r w1) = sent (handed r w2)).
  { cbn [sent handed]. rewrite Hs. reflexivity. }
  destruct (client_Do E1 (length (sent w1)) j) as [e|hr]; [split; [reflexivity|exact Hh]|].
  destruct (negb _).
  - destruct (ReadAll _) as [d [e|]]; split; try reflexivity; exact Hh.
  - specialize (HJ (HttpResponse.Body hr)).
    destruct (json_Decode E1 _) as [r1|e1], (json_Decode E2 _) as [r2|e2];
      try contradiction.
    + split; [exact HJ|exact Hh].
    + split; [rewrite HJ; reflexivity|exact Hh].
Qed.

(** X11. What a session does to the conversation and what it sends depend
    on the first block of each decoded response only.  Two environments
    that differ only in the blocks after the first and in how a response is
    printed lead to the same ending, the same final conversation and the
    same requests, in the same order. *)
Theorem later_blocks_leave_no_trace :
  forall (E1 E2 : Env) (tools : list Tool) (scanner : list string)
         (c : Conversation) (w1 w2 : World),
    heads_agree E1 E2 ->
    sent w1 = sent w2 ->
    fst (Converse E1 scanner tools c w1) = fst (Converse E2 scanner tools c w2) /\
    sent (snd (Converse E1 scanner tools c w1))
    = sent (snd (Converse E2 scanner tools c w2)).
Proof.
  intros E1 E2 tools scanner c w1 w2 HA. revert c w1 w2.
  induction scanner as [|input scanner IH]; intros c w1 w2 Hs.
  - cbn [Converse fst snd sent print]. split; [reflexivity|exact Hs].
  - cbn [Converse]. rewrite (strings_ToLower_agree E1 E2 input HA).
    destruct (String.eqb _ _); [cbn [fst snd sent print]; split; [reflexivity|exact Hs]|].
    assert (Hp : sent (print "You: " w1) = sent (print "You: " w2)) by exact Hs.
    pose proof (Post_heads_agree E1 E2
                  (Request.mk Opus (c ++ [Message.mk User input]) 2048 SYS_PROMPT tools)
                  _ _ HA Hp) as HP.
    destruct (Post E1 _ _) as [[r1|e1] w1'], (Post E2 _ _) as [[r2|e2] w2'];
      try contradiction; destruct HP as [H1 H2].
    + destruct (Response.Content r1) as [|b1 l1], (Response.Content r2) as [|b2 l2];
        try discriminate H1.
      * cbn [fst snd sent print]. split; [reflexivity|exact H2].
      * inversion H1; subst. apply IH. exact H2.
    + subst e2. apply IH. exact H2.
Qed.

Lemma thinking_heads_agree : heads_agree thinking_env thinking_env'.
Proof.
  repeat split.
  intros b. cbn [thinking_env thinking_env' scripted json_Decode table_Decode].
  destruct (Body.readErr b); [reflexivity|].
  destruct (String.eqb _ _); reflexivity.
Qed.

Lemma later_blocks_leave_no_trace_witness :
  fst (Converse thinking_env ["Think."; "Again."] [postal_codes] [] fresh)
  = fst (Converse thinking_env' ["Think."; "Again."] [postal_codes] [] fresh).
Proof.
  refine (proj1 (later_blocks_leave_no_trace thinking_env thinking_env'
                   [postal_codes] ["Think."; "Again."] [] fresh fresh _ _)).
  - exact thinking_heads_agree.
  - reflexivity.
Defined.

(** ** Start-up *)

Lemma Tool_copy (t : Tool) :
  Tool.mk (Tool.Name t) (Tool.Description t) (Tool.InputSchema t) = t.
Proof. destruct t; reflexivity. Qed.

(** X12. [LoadToolFromJSONFile] returns a tool exactly when the file can be
    read and its content unmarshals, and the tool is the unmarshalled one,
    unchanged.  Every error it returns says which of the two steps failed
    and carries the underlying error. *)
Theorem LoadToolFromJSONFile_result :
  forall (S : Startup) (filename : string),
    (forall tool : Tool,
       LoadToolFromJSONFile S filename = Ok tool <->
       exists data, os_ReadFile S filename = Ok data /\
                    json_Unmarshal S data = Ok tool) /\
    (forall msg : error,
       LoadToolFromJSONFile S filename = Err msg ->
       (exists e, os_ReadFile S filename = Err e /\
                  msg = "failed to read JSON file: " +:+ e) \/
       (exists data e, os_ReadFile S filename = Ok data /\
                       json_Unmarshal S data = Err e /\
                       msg = "failed to unmarshal JSON: " +:+ e)).
Proof.
  intros S filename. unfold LoadToolFromJSONFile. split.
  - intros tool. split.
    + destruct (os_ReadFile S filename) as [data|e]; [|discriminate].
      destruct (json_Unmarshal S data) as [t|e] eqn:HU; [|discriminate].
      rewrite Tool_copy. intros H. inversion H; subst. eauto.
    + intros (data & HR & HU). rewrite HR, HU, Tool_copy. reflexivity.
  - intros msg.
    destruct (os_ReadFile S filename) as [data|e].
    + destruct (json_Unmarshal S data) as [t|e] eqn:HU; [discriminate|].
      intros H. inversion H; subst. right. eauto.
    + intros H. inversion H; subst. left. eauto.
Qed.

(** X13. When [Load] lets the process go on, the configuration holds a
    non-empty API key, the value of ANTHROPIC_API_KEY in the environment
    that [godotenv.Load] left behind, and [requireDotEnv] is unchanged.  A
    failed [godotenv.Load] is survived only when [requireDotEnv] is false,
    and then a notice is printed. *)
Theorem Load_yields_a_key :
  forall (S : Startup) (c c' : Config) (w w' : World) (env : gmap string string),
    Load S c w = Done (c', env, w') ->
    Config.AnthropicApiKey c' <> "" /\
    Config.AnthropicApiKey c' = Getenv env "ANTHROPIC_API_KEY" /\
    env = snd (godotenv_Load S (environ S)) /\
    Config.requireDotEnv c' = Config.requireDotEnv c /\
    match fst (godotenv_Load S (environ S)) with
    | None => w' = w
    | Some _ => Config.requireDotEnv c = false /\
                w' = println "Could not load .env, continuing..." w
    end.
Proof.
  intros S c c' w w' env. unfold Load.
  destruct (godotenv_Load S (environ S)) as [err env0]. cbn [fst snd].
  assert (Hgo : forall w0,
             (if String.eqb (Getenv env0 "ANTHROPIC_API_KEY") ""
              then Fatal "FATAL: could not find ANTHROPIC_API_KEY"
              else Done (Config.mk (Config.requireDotEnv c)
                                   (Getenv env0 "ANTHROPIC_API_KEY"), env0, w0))
             = Done (c', env, w') ->
             Config.AnthropicApiKey c' <> "" /\
             Config.AnthropicApiKey c' = Getenv env "ANTHROPIC_API_KEY" /\
             env = env0 /\
             Config.requireDotEnv c' = Config.requireDotEnv c /\ w' = w0).
  { intros w0. destruct (String.eqb _ _) eqn:Hk; [discriminate|].
    apply String.eqb_neq in Hk. intros H. inversion H; subst.
    cbn [Config.AnthropicApiKey Config.requireDotEnv]. repeat split. exact Hk. }
  destruct err as [e|].
  - destruct (Config.requireDotEnv c) eqn:Hr; [discriminate|].
    intros H. destruct (Hgo _ H) as (H1 & H2 & H3 & H4 & H5).
    repeat split; assumption.
  - intros H. destruct (Hgo _ H) as (H1 & H2 & H3 & H4 & H5).
    repeat split; assumption.
Qed.

Lemma Load_yields_a_key_witness :
  Config.AnthropicApiKey (Config.mk false "sk-test") <> "".
Proof.
  refine (proj1 (Load_yields_a_key no_dotenv_startup (NewConfig false)
                   (Config.mk false "sk-test") fresh
                   (println "Could not load .env, continuing..." fresh)
                   {[ "ANTHROPIC_API_KEY" := "sk-test" ]} _)).
  vm_compute. reflexivity.
Defined.

(** X14. [Load] is fatal in exactly two cases: [godotenv.Load] failed and
    the configuration requires the .env file; or the process may go on
    past that step but ANTHROPIC_API_KEY is unset or empty.  The logged
    message tells the two apart. *)
Theorem Load_is_fatal_iff :
  forall (S : Startup) (c : Config) (w : World) (msg : string),
    Load S c w = Fatal msg <->
    (fst (godotenv_Load S (environ S)) <> None /\
     Config.requireDotEnv c = true /\
     msg = "FATAL: Could not load .env") \/
    ((fst (godotenv_Load S (environ S)) = None \/ Config.requireDotEnv c = false) /\
     Getenv (snd (godotenv_Load S (environ S))) "ANTHROPIC_API_KEY" = "" /\
     msg = "FATAL: could not find ANTHROPIC_API_KEY").
Proof.
  intros S c w msg. unfold Load.
  destruct (godotenv_Load S (environ S)) as [err env]. cbn [fst snd].
  destruct err as [e|]; [destruct (Config.requireDotEnv c)|].
  - split.
    + intros H. inversion H; subst. left. repeat split. discriminate.
    + intros [(_ & _ & ->)|([H|H] & _)]; [reflexivity|discriminate H|discriminate H].
  - destruct (String.eqb _ _) eqn:Hk.
    + apply String.eqb_eq in Hk. split.
      * intros H. inversion H; subst. right. repeat split; [right; reflexivity|exact Hk].
      * intros [(_ & H & _)|(_ & _ & ->)]; [discriminate H|reflexivity].
    + apply String.eqb_neq in Hk. split; [discriminate|].
      intros [(_ & H & _)|(_ & H & _)]; [discriminate H|contradiction].
  - destruct (String.eqb _ _) eqn:Hk.
    + apply String.eqb_eq in Hk. split.
      * intros H. inversion H; subst. right. repeat split; [left; reflexivity|exact Hk].
      * intros [(H & _)|(_ & _ & ->)]; [contradiction|reflexivity].
    + apply String.eqb_neq in Hk. split; [discriminate|].
      intros [(H & _)|(_ & H & _)]; contradiction.
Qed.

(** X15. [main] reaches the conversation exactly when [godotenv.Load]
    succeeded, ANTHROPIC_API_KEY is then non-empty, and the tool file
    tools/postal_codes.json can be read and unmarshals.  The session then
    is [Converse] on the lines of standard input with that single tool, an
    empty conversation and nothing printed before the first prompt. *)
Theorem main_converses_iff :
  forall (S : Startup) (E : Env) (stdin : list string)
         (outcome : ending * Conversation * World),
    main S E stdin = Done outcome <->
    exists data tool,
      fst (godotenv_Load S (environ S)) = None /\
      Getenv (snd (godotenv_Load S (environ S))) "ANTHROPIC_API_KEY" <> "" /\
      os_ReadFile S "tools/postal_codes.json" = Ok data /\
      json_Unmarshal S data = Ok tool /\
      outcome = Converse E stdin [tool] [] fresh.
Proof.
  intros S E stdin outcome. unfold main, Load, NewConfig, LoadToolFromJSONFile.
  cbn [Config.requireDotEnv].
  destruct (godotenv_Load S (environ S)) as [err env]. cbn [fst snd].
  destruct err as [e|].
  - split; [discriminate|]. intros (data & tool & H & _). discriminate H.
  - destruct (String.eqb _ _) eqn:Hk.
    + apply String.eqb_eq in Hk. split; [discriminate|].
      intros (data & tool & _ & H & _). contradiction.
    + apply String.eqb_neq in Hk.
      destruct (os_ReadFile S "tools/postal_codes.json") as [data|e].
      * destruct (json_Unmarshal S data) as [t|e] eqn:HU.
        -- rewrite Tool_copy. split.
           ++ intros H. inversion H; subst. exists data, t. repeat split; assumption.
           ++ intros (d & tool & _ & _ & Hd & Ht & ->).
              inversion Hd; subst. rewrite HU in Ht. inversion Ht; subst. reflexivity.
        -- split; [discriminate|].
           intros (d & tool & _ & _ & Hd & Ht & _).
           inversion Hd; subst. rewrite HU in Ht. discriminate Ht.
      * split; [discriminate|].
        intros (d & tool & _ & _ & Hd & _). discriminate Hd.
Qed.

(** X16. [main] insists on the .env file: when [godotenv.Load] fails the
    process is stopped with "FATAL: Could not load .env", whatever the
    environment holds (a valid ANTHROPIC_API_KEY included), whatever the
    tool file is, and before any line of input is read. *)
Theorem main_requires_dotenv :
  forall (S : Startup) (E : Env) (stdin : list string) (e : error),
    fst (godotenv_Load S (environ S)) = Some e ->
    main S E stdin = Fatal "FATAL: Could not load .env".
Proof.
  intros S E stdin e. unfold main, Load, NewConfig. cbn [Config.requireDotEnv].
  destruct (godotenv_Load S (environ S)) as [err env]. cbn [fst].
  intros ->. reflexivity.
Qed.

Lemma main_requires_dotenv_witness :
  Getenv (environ no_dotenv_startup) "ANTHROPIC_API_KEY" = "sk-test" /\
  main no_dotenv_startup atlanta_env [atlanta_line] = Fatal "FATAL: Could not load .env".
Proof.
  split; [vm_compute; reflexivity|].
  apply (main_requires_dotenv no_dotenv_startup atlanta_env [atlanta_line]
           "open .env: no such file or directory").
  reflexivity.
Defined.

(** X17. Every request a run of [main] hands to the client carries exactly
    one tool, the one loaded from the tool file, together with the fixed
    model, token budget and system prompt; and a run sends at most one
    request per line of standard input. *)
Theorem main_requests_carry_the_loaded_tool :
  forall (S : Startup) (E : Env) (stdin : list string)
         (e : ending) (c : Conversation) (w : World),
    main S E stdin = Done (e, c, w) ->
    exists tool : Tool,
      LoadToolFromJSONFile S "tools/postal_codes.json" = Ok tool /\
      Forall (fun r => Request.Tools r = [tool] /\ Request.Model r = Opus /\
                       Request.MaxTokens r = 2048%Z /\
                       Request.System r = SYS_PROMPT) (sent w) /\
      (length (sent w) <= length stdin)%nat.
Proof.
  intros S E stdin e c w. unfold main.
  destruct (Load S (NewConfig true) fresh) as [msg|[[cfg env] w0]] eqn:HL;
    [discriminate|].
  assert (Hw0 : w0 = fresh).
  { destruct (Load_yields_a_key S _ _ _ _ _ HL) as (_ & _ & _ & _ & Hm).
    destruct (fst (godotenv_Load S (environ S))); [|exact Hm].
    destruct Hm as [Hm _]. discriminate Hm. }
  subst w0.
  destruct (LoadToolFromJSONFile S "tools/postal_codes.json") as [tool|err];
    [|discriminate].
  intros H. inversion H as [HC]. exists tool. split; [reflexivity|].
  destruct (Converse_requests E [tool] stdin [] fresh) as (rs & Hs & Hl & Hf).
  rewrite HC in Hs. cbn [snd sent fresh app] in Hs. rewrite Hs.
  split; [|exact Hl].
  eapply Forall_impl; [exact Hf|].
  intros r (c0 & i0 & _ & ->). repeat split.
Qed.

Lemma main_requests_carry_the_loaded_tool_witness :
  exists tool : Tool,
    LoadToolFromJSONFile dev_startup "tools/postal_codes.json" = Ok tool /\
    Forall (fun r => Request.Tools r = [tool] /\ Request.Model r = Opus /\
                     Request.MaxTokens r = 2048%Z /\
                     Request.System r = SYS_PROMPT)
           (sent (snd (Converse atlanta_env [atlanta_line] [postal_codes] [] fresh))) /\
    (length (sent (snd (Converse atlanta_env [atlanta_line] [postal_codes] [] fresh)))
     <= length [atlanta_line])%nat.
Proof.
  refine (main_requests_carry_the_loaded_tool dev_startup atlanta_env [atlanta_line]
            (fst (fst (Converse atlanta_env [atlanta_line] [postal_codes] [] fresh)))
            (snd (fst (Converse atlanta_env [atlanta_line] [postal_codes] [] fresh)))
            (snd (Converse atlanta_env [atlanta_line] [postal_codes] [] fresh)) _).
  vm_compute. reflexivity.
Defined.

(** ** Growth of the conversation, and the errors of [Post] by cause *)

(** X18. Nothing is ever removed and nothing is truncated: the final
    conversation of a session is at least as long as the initial one, and
    longer by at most two messages (the user's and one assistant message)
    per input line. *)
Theorem conversation_grows_by_at_most_two_per_line :
  forall (E : Env) (tools : list Tool) (scanner : list string)
         (c : Conversation) (w : World),
    (length c <= length (snd (fst (Converse E scanner tools c w)))
     <= length c + 2 * length scanner)%nat.
Proof.
  intros E tools scanner. induction scanner as [|input scanner IH]; intros c w.
  - rewrite Converse_eof. cbn [snd fst length]. lia.
  - destruct (String.eqb (strings_ToLower E input) "exit") eqn:Hx.
    + apply String.eqb_eq in Hx. rewrite (Converse_exit E tools _ _ _ _ Hx).
      cbn [snd fst length]. lia.
    + apply String.eqb_neq in Hx.
      destruct (Converse_turn E tools input scanner c w Hx)
        as (c' & w' & Hc' & _ & Hgo).
      assert (Hl : (length c + 1 <= length c' <= length c + 2)%nat).
      { destruct Hc' as [->|[t ->]]; rewrite !length_app; cbn [length]; lia. }
      destruct Hgo as [Hgo|Hgo]; rewrite Hgo; cbn [snd fst length].
      * specialize (IH c' w'). lia.
      * lia.
Qed.

(** X19. Every error [Post] returns falls under one of five cases and has
    the message of its case: the marshalling error passed on as it is
    (nothing was handed to the client); "failed to send request: " with the
    error of the exchange; for a status code other than 200, the status
    code with the read error when the body cannot be read, or with the body;
    "failed to decode response: " with the decoding error.  In the last
    four cases the request was handed to the client once. *)
Theorem Post_error_causes :
  forall (E : Env) (r : Request) (w w' : World) (msg : error),
    Post E r w = (Err msg, w') ->
    (json_Marshal E r = Err msg /\ w' = w) \/
    (w' = handed r w /\
     exists jsonRequest, json_Marshal E r = Ok jsonRequest /\
       match client_Do E (length (sent w)) jsonRequest with
       | DoErr e => msg = "failed to send request: " +:+ e
       | DoResp resp =>
         if (HttpResponse.StatusCode resp =? 200)%Z then
           exists e, json_Decode E (HttpResponse.Body resp) = Err e /\
                     msg = "failed to decode response: " +:+ e
         else
           match Body.readErr (HttpResponse.Body resp) with
           | Some e =>
             msg = "API request failed with status code: "
                   +:+ itoa (HttpResponse.StatusCode resp)
                   +:+ ", failed to read response body: " +:+ e
           | None =>
             msg = "API request failed with status code: "
                   +:+ itoa (HttpResponse.StatusCode resp)
                   +:+ ", response body: " +:+ Body.data (HttpResponse.Body resp)
           end
       end).
Proof.
  intros E r w w' msg. unfold Post.
  destruct (json_Marshal E r) as [j|e] eqn:HM.
  - intros H. right.
    assert (Hw : w' = handed r w).
    { revert H. destruct (client_Do E _ _) as [e|hr]; [intros H; inversion H; reflexivity|].
      destruct (negb _).
      - destruct (ReadAll _) as [d [e|]]; intros H; inversion H; reflexivity.
      - destruct (json_Decode E _); intros H; inversion H; reflexivity. }
    split; [exact Hw|]. exists j. split; [reflexivity|].
    destruct (client_Do E (length (sent w)) j) as [e|hr].
    + inversion H; reflexivity.
    + unfold StatusOK in H.
      destruct (HttpResponse.StatusCode hr =? 200)%Z; cbn [negb] in H.
      * destruct (json_Decode E _) as [r0|e]; [discriminate|].
        exists e. split; [reflexivity|]. inversion H; reflexivity.
      * unfold ReadAll in H.
        destruct (Body.readErr _) as [e|]; inversion H; reflexivity.
  - intros H. inversion H; subst. left. split; reflexivity.
Qed.

Lemma Post_error_causes_witness :
  json_Marshal overloaded_env (request_of [] [Message.mk User "Hi"])
  = Err "API request failed with status code: 500, response body: <html>overloaded</html>" /\
  handed (request_of [] [Message.mk User "Hi"]) fresh = fresh
  \/ handed (request_of [] [Message.mk User "Hi"]) fresh
     = handed (request_of [] [Message.mk User "Hi"]) fresh /\
     exists jsonRequest,
       json_Marshal overloaded_env (request_of [] [Message.mk User "Hi"]) = Ok jsonRequest /\
       match client_Do overloaded_env (length (sent fresh)) jsonRequest with
       | DoErr e =>
         "API request failed with status code: 500, response body: <html>overloaded</html>"
         = "failed to send request: " +:+ e
       | DoResp resp =>
         if (HttpResponse.StatusCode resp =? 200)%Z then
           exists e, json_Decode overloaded_env (HttpResponse.Body resp) = Err e /\
             "API request failed with status code: 500, response body: <html>overloaded</html>"
             = "failed to decode response: " +:+ e
         else
           match Body.readErr (HttpResponse.Body resp) with
           | Some e =>
             "API request failed with status code: 500, response body: <html>overloaded</html>"
             = "API request failed with status code: "
               +:+ itoa (HttpResponse.StatusCode resp)
               +:+ ", failed to read response body: " +:+ e
           | None =>
             "API request failed with status code: 500, response body: <html>overloaded</html>"
             = "API request failed with status code: "
               +:+ itoa (HttpResponse.StatusCode resp)
               +:+ ", response body: " +:+ Body.data (HttpResponse.Body resp)
           end
       end.
Proof.
  apply (Post_error_causes overloaded_env (request_of [] [Message.mk User "Hi"]) fresh
           (handed (request_of [] [Message.mk User "Hi"]) fresh)
           "API request failed with status code: 500, response body: <html>overloaded</html>").
  reflexivity.
Defined.

(** ** The message of an error of [Post] identifies its cause *)

Lemma append_cons (a : ascii) (s t : string) :
  String a s +:+ t = String a (s +:+ t).
Proof. reflexivity. Qed.

Lemma append_empty_l (t : string) : "" +:+ t = t.
Proof. reflexivity. Qed.

Lemma append_cancel_l (p a b : string) : p +:+ a = p +:+ b -> a = b.
Proof.
  induction p as [|x p IH]; [intros H; exact H|].
  rewrite !append_cons. intros H. inversion H. apply IH. assumption.
Qed.

(** Two texts that agree up to and including their first comma have the
    same part before it and the same part after it. *)
Lemma split_at_first_comma c1 : forall c2 a b,
  occurs ","%char c1 = false -> occurs ","%char c2 = false ->
  c1 +:+ String ","%char a = c2 +:+ String ","%char b ->
  c1 = c2 /\ a = b.
Proof.
  induction c1 as [|x c1 IH]; intros [|y c2] a b H1 H2;
    rewrite ?append_cons, ?append_empty_l; intros H.
  - inversion H. split; reflexivity.
  - inversion H; subst. cbn [occurs] in H2. rewrite Ascii.eqb_refl in H2.
    discriminate H2.
  - inversion H; subst. cbn [occurs] in H1. rewrite Ascii.eqb_refl in H1.
    discriminate H1.
  - inversion H; subst. cbn [occurs] in H1, H2.
    apply orb_false_iff in H1 as [_ H1]. apply orb_false_iff in H2 as [_ H2].
    destruct (IH c2 a b H1 H2) as [-> ->]; [assumption|]. split; reflexivity.
Qed.

Lemma string_of_uint_no_comma (d : Decimal.uint) :
  occurs ","%char (NilEmpty.string_of_uint d) = false.
Proof.
  induction d; cbn [NilEmpty.string_of_uint occurs]; try reflexivity;
    rewrite IHd; reflexivity.
Qed.

(** The decimal form of a number holds no comma. *)
Lemma itoa_no_comma (n : Z) : occurs ","%char (itoa n) = false.
Proof.
  unfold itoa, NilZero.string_of_int, NilZero.string_of_uint.
  destruct (Z.to_int n) as [d|d]; cbn [occurs];
    destruct d; try reflexivity;
    cbn [NilEmpty.string_of_uint occurs]; rewrite string_of_uint_no_comma;
    reflexivity.
Qed.

(** The message [Post] builds for a cause. *)
Lemma Post_error_has_a_cause E r w w' msg jsonRequest :
  json_Marshal E r = Ok jsonRequest ->
  Post E r w = (Err msg, w') ->
  match cause_of E (client_Do E (length (sent w)) jsonRequest) with
  | Some (SendFailed e) => msg = "failed to send request: " +:+ e
  | Some (StatusUnreadable code e) =>
    msg = "API request failed with status code: " +:+ code
          +:+ ", failed to read response body: " +:+ e
  | Some (StatusWithBody code body) =>
    msg = "API request failed with status code: " +:+ code
          +:+ ", response body: " +:+ body
  | Some (DecodeFailed e) => msg = "failed to decode response: " +:+ e
  | None => False
  end.
Proof.
  intros HM. unfold Post, cause_of, StatusOK, ReadAll. rewrite HM.
  destruct (client_Do E (length (sent w)) jsonRequest) as [e|resp].
  - intros H. inversion H. reflexivity.
  - destruct (HttpResponse.StatusCode resp =? 200)%Z; cbn [negb].
    + destruct (json_Decode E _); intros H; inversion H. reflexivity.
    + destruct (Body.readErr _); intros H; inversion H; reflexivity.
Qed.

Ltac expose_prefix H :=
  repeat rewrite append_cons in H; repeat rewrite append_empty_l in H.

(** X20. Once the request was marshalled, the message of the error [Post]
    returns identifies why it failed: two failing calls of [Post], in
    whatever environments and for whatever requests, that return the same
    message failed for the same cause (the exchange, an unreadable body
    under a status code other than 200, such a status code with its body,
    or decoding), with the same status code in decimal and the same
    underlying error or body. *)
Theorem Post_error_message_identifies_the_cause :
  forall (E1 E2 : Env) (r1 r2 : Request) (w1 w2 w1' w2' : World)
         (j1 j2 : string) (msg : error),
    json_Marshal E1 r1 = Ok j1 ->
    json_Marshal E2 r2 = Ok j2 ->
    Post E1 r1 w1 = (Err msg, w1') ->
    Post E2 r2 w2 = (Err msg, w2') ->
    cause_of E1 (client_Do E1 (length (sent w1)) j1)
    = cause_of E2 (client_Do E2 (length (sent w2)) j2) /\
    cause_of E1 (client_Do E1 (length (sent w1)) j1) <> None.
Proof.
  intros E1 E2 r1 r2 w1 w2 w1' w2' j1 j2 msg HM1 HM2 HP1 HP2.
  pose proof (Post_error_has_a_cause E1 r1 w1 w1' msg j1 HM1 HP1) as H1.
  pose proof (Post_error_has_a_cause E2 r2 w2 w2' msg j2 HM2 HP2) as H2.
  assert (Hc1 : match cause_of E1 (client_Do E1 (length (sent w1)) j1) with
                | Some (StatusUnreadable code _) | Some (StatusWithBody code _) =>
                  occurs ","%char code = false
                | _ => True
                end).
  { unfold cause_of. destruct (client_Do E1 _ _) as [e|resp]; [exact I|].
    destruct (_ =? _)%Z; [destruct (json_Decode E1 _); exact I|].
    destruct (Body.readErr _); apply itoa_no_comma. }
  assert (Hc2 : match cause_of E2 (client_Do E2 (length (sent w2)) j2) with
                | Some (StatusUnreadable code _) | Some (StatusWithBody code _) =>
                  occurs ","%char code = false
                | _ => True
                end).
  { unfold cause_of. destruct (client_Do E2 _ _) as [e|resp]; [exact I|].
    destruct (_ =? _)%Z; [destruct (json_Decode E2 _); exact I|].
    destruct (Body.readErr _); apply itoa_no_comma. }
  destruct (cause_of E1 _) as [k1|]; [|contradiction].
  destruct (cause_of E2 _) as [k2|]; [|contradiction].
  split; [|discriminate].
  destruct k1 as [e1|c1 e1|c1 b1|e1], k2 as [e2|c2 e2|c2 b2|e2];
    rewrite H1 in H2; clear H1.
  - apply append_cancel_l in H2. subst. reflexivity.
  - expose_prefix H2. discriminate H2.
  - expose_prefix H2. discriminate H2.
  - expose_prefix H2. discriminate H2.
  - expose_prefix H2. discriminate H2.
  - apply append_cancel_l in H2. expose_prefix H2.
    apply split_at_first_comma in H2 as [-> H2]; [|assumption|assumption].
    inversion H2. reflexivity.
  - apply append_cancel_l in H2. expose_prefix H2.
    apply split_at_first_comma in H2 as [_ H2]; [|assumption|assumption].
    discriminate H2.
  - expose_prefix H2. discriminate H2.
  - expose_prefix H2. discriminate H2.
  - apply append_cancel_l in H2. expose_prefix H2.
    apply split_at_first_comma in H2 as [_ H2]; [|assumption|assumption].
    discriminate H2.
  - apply append_cancel_l in H2. expose_prefix H2.
    apply split_at_first_comma in H2 as [-> H2]; [|assumption|assumption].
    inversion H2. reflexivity.
  - expose_prefix H2. discriminate H2.
  - expose_prefix H2. discriminate H2.
  - expose_prefix H2. discriminate H2.
  - expose_prefix H2. discriminate H2.
  - apply append_cancel_l in H2. subst. reflexivity.
Qed.

Lemma Post_error_message_identifies_the_cause_witness :
  cause_of overloaded_env (client_Do overloaded_env (length (sent fresh)) "{}")
  = cause_of (scripted [reply 200 "<reply t1>"; reply 500 "<html>overloaded</html>"] [])
      (client_Do (scripted [reply 200 "<reply t1>"; reply 500 "<html>overloaded</html>"] [])
         (length (sent (handed (request_of [] [Message.mk User "Hi"]) fresh))) "{}").
Proof.
  refine (proj1 (Post_error_message_identifies_the_cause overloaded_env
            (scripted [reply 200 "<reply t1>"; reply 500 "<html>overloaded</html>"] [])
            (request_of [] [Message.mk User "Hi"])
            (request_of [postal_codes] [Message.mk User "Hi"; Message.mk User "Again"])
            fresh (handed (request_of [] [Message.mk User "Hi"]) fresh)
            (handed (request_of [] [Message.mk User "Hi"]) fresh)
            (handed (request_of [postal_codes]
                       [Message.mk User "Hi"; Message.mk User "Again"])
               (handed (request_of [] [Message.mk User "Hi"]) fresh))
            "{}" "{}"
            "API request failed with status code: 500, response body: <html>overloaded</html>"
            _ _ _ _)); reflexivity.
Defined.
